(** * App.jsx: identity bootstrap, view router and loading gate

    A shallow embedding of [src/App.jsx].  The React component is modelled
    as a transition system: the component state (the seven [useState]
    cells) together with the part of the outside world the component talks
    to (the Firebase SDK calls it makes, the listener subscription, the
    pending [attemptSignIn] promise).  The SDK itself is not part of the
    repository; the outcome of each of its calls is supplied by an
    environment [Env] or by the event that settles a promise.  The
    evaluation of the module itself, which parses the configuration text
    before any component exists, is [loadModule]. *)

From Stdlib Require Import String Ascii List Bool Arith ZArith Lia DecimalString.
Import ListNotations.
Open Scope string_scope.
#[local] Set Warnings "-register-all".

(** ** JavaScript values read at module scope *)

(** The result of [JSON.parse].  Only the truthiness and the own keys of
    the value are observed by the program, so a number is kept as an
    integer (zero is the only falsy one that [JSON.parse] can produce). *)
Inductive Json : Type :=
| JNull
| JBool (b : bool)
| JNum (z : Z)
| JStr (s : string)
| JArr (items : list Json)
| JObj (fields : list (string * Json)).

Definition truthy (v : Json) : bool :=
  match v with
  | JNull => false
  | JBool b => b
  | JNum z => negb (Z.eqb z 0)
  | JStr s => negb (String.eqb s "")
  | JArr _ => true
  | JObj _ => true
  end.

Definition index_key (i : nat) : string :=
  NilEmpty.string_of_uint (Nat.to_uint i).

(** [Object.keys v].  On [null] JavaScript raises a TypeError; the only
    call site is guarded by [!firebaseConfig ||], which never evaluates it
    there. *)
Definition Object_keys (v : Json) : list string :=
  match v with
  | JNull => []
  | JBool _ => []
  | JNum _ => []
  | JStr s => map index_key (seq 0 (String.length s))
  | JArr items => map index_key (seq 0 (List.length items))
  | JObj fields => map fst fields
  end.

(** Truthiness of a string-or-null value ([if (initialAuthToken)],
    [!userId], [userId ? userId : 'N/A']). *)
Definition truthy_str (v : option string) : bool :=
  match v with
  | Some s => negb (String.eqb s "")
  | None => false
  end.

(** Truthiness of an object-or-null value ([!db], [if (user)]). *)
Definition truthy_obj {A : Type} (v : option A) : bool :=
  match v with
  | Some _ => true
  | None => false
  end.

(** ** SDK handles and values *)

Inductive FirebaseApp : Type := AppHandle (n : nat).
Inductive Firestore : Type := FirestoreHandle (n : nat).
Inductive Auth : Type := AuthHandle (n : nat).
Inductive CollectionReference : Type := CollectionHandle (n : nat).

Record User : Type := { uid : string }.

(** A thrown value or rejection reason: an [Error] object. *)
Record Error : Type := { message : string }.

(** ** The environment: module-scope globals and the SDK's answers *)

Record Env : Type := {
  g_app_id : option string;             (* __app_id, when defined *)
  firebaseConfig : Json;                (* JSON.parse(__firebase_config | '{}') *)
  initialAuthToken : option string;     (* __initial_auth_token, or null *)
  initializeApp : Json -> Error + FirebaseApp;
  getFirestore : FirebaseApp -> Error + Firestore;
  getAuth : FirebaseApp -> Error + Auth;
  onAuthStateChanged : Auth -> Error + unit;
  collection : Firestore -> string -> Error + CollectionReference
}.

Definition appId (E : Env) : string :=
  match g_app_id E with
  | Some a => a
  | None => "default-app-id"
  end.

(** ** Component state *)

Record AppState : Type := {
  db : option Firestore;
  auth : option Auth;
  userId : option string;
  isAuthReady : bool;
  loadingMessage : string;
  activeTab : string;
  userStatus : option string
}.

Definition initialState : AppState :=
  {| db := None;
     auth := None;
     userId := None;
     isAuthReady := false;
     loadingMessage := "Initializing application...";
     activeTab := "Chat";
     userStatus := None |}.

Definition with_db (v : option Firestore) (st : AppState) : AppState :=
  {| db := v; auth := auth st; userId := userId st;
     isAuthReady := isAuthReady st; loadingMessage := loadingMessage st;
     activeTab := activeTab st; userStatus := userStatus st |}.

Definition with_auth (v : option Auth) (st : AppState) : AppState :=
  {| db := db st; auth := v; userId := userId st;
     isAuthReady := isAuthReady st; loadingMessage := loadingMessage st;
     activeTab := activeTab st; userStatus := userStatus st |}.

Definition with_userId (v : option string) (st : AppState) : AppState :=
  {| db := db st; auth := auth st; userId := v;
     isAuthReady := isAuthReady st; loadingMessage := loadingMessage st;
     activeTab := activeTab st; userStatus := userStatus st |}.

Definition with_isAuthReady (v : bool) (st : AppState) : AppState :=
  {| db := db st; auth := auth st; userId := userId st;
     isAuthReady := v; loadingMessage := loadingMessage st;
     activeTab := activeTab st; userStatus := userStatus st |}.

Definition with_loadingMessage (v : string) (st : AppState) : AppState :=
  {| db := db st; auth := auth st; userId := userId st;
     isAuthReady := isAuthReady st; loadingMessage := v;
     activeTab := activeTab st; userStatus := userStatus st |}.

Definition with_activeTab (v : string) (st : AppState) : AppState :=
  {| db := db st; auth := auth st; userId := userId st;
     isAuthReady := isAuthReady st; loadingMessage := loadingMessage st;
     activeTab := v; userStatus := userStatus st |}.

Definition with_userStatus (v : option string) (st : AppState) : AppState :=
  {| db := db st; auth := auth st; userId := userId st;
     isAuthReady := isAuthReady st; loadingMessage := loadingMessage st;
     activeTab := activeTab st; userStatus := v |}.

(** ** The world around the component *)

(** What the component does to the outside: SDK calls and console output,
    in the order they happen. *)
Inductive Effect : Type :=
| CallInitializeApp (cfg : Json)
| CallGetFirestore (app : FirebaseApp)
| CallGetAuth (app : FirebaseApp)
| CallOnAuthStateChanged (a : Auth)
| CallSignInWithCustomToken (a : Auth) (token : string)
| CallSignInAnonymously (a : Auth)
| ConsoleError (label : string) (e : Error)
| CallUnsubscribe.

(** Where the async function [attemptSignIn] stands. *)
Inductive SignInTask : Type :=
| NotStarted
| AwaitingFirst (a : Auth)        (* suspended at the await inside try *)
| AwaitingFallback (a : Auth)     (* suspended at the await inside catch *)
| Fulfilled
| Rejected (e : Error).           (* the fallback's rejection, unhandled *)

Inductive Phase : Type := BeforeEffect | Mounted | Unmounted.

Record Sys : Type := {
  ui : AppState;
  trace : list Effect;
  subscribed : bool;        (* the auth-state listener is registered *)
  hasCleanup : bool;        (* the effect returned [() => unsubscribe()] *)
  task : SignInTask;
  phase : Phase;
  crashed : option Error    (* an exception escaped the effect *)
}.

Definition initialSys : Sys :=
  {| ui := initialState; trace := []; subscribed := false;
     hasCleanup := false; task := NotStarted; phase := BeforeEffect;
     crashed := None |}.

Definition with_ui (f : AppState -> AppState) (s : Sys) : Sys :=
  {| ui := f (ui s); trace := trace s; subscribed := subscribed s;
     hasCleanup := hasCleanup s; task := task s; phase := phase s;
     crashed := crashed s |}.

Definition with_trace (t : list Effect) (s : Sys) : Sys :=
  {| ui := ui s; trace := t; subscribed := subscribed s;
     hasCleanup := hasCleanup s; task := task s; phase := phase s;
     crashed := crashed s |}.

Definition with_subscribed (b : bool) (s : Sys) : Sys :=
  {| ui := ui s; trace := trace s; subscribed := b;
     hasCleanup := hasCleanup s; task := task s; phase := phase s;
     crashed := crashed s |}.

Definition with_hasCleanup (b : bool) (s : Sys) : Sys :=
  {| ui := ui s; trace := trace s; subscribed := subscribed s;
     hasCleanup := b; task := task s; phase := phase s;
     crashed := crashed s |}.

Definition with_task (t : SignInTask) (s : Sys) : Sys :=
  {| ui := ui s; trace := trace s; subscribed := subscribed s;
     hasCleanup := hasCleanup s; task := t; phase := phase s;
     crashed := crashed s |}.

Definition with_phase (p : Phase) (s : Sys) : Sys :=
  {| ui := ui s; trace := trace s; subscribed := subscribed s;
     hasCleanup := hasCleanup s; task := task s; phase := p;
     crashed := crashed s |}.

Definition with_crashed (c : option Error) (s : Sys) : Sys :=
  {| ui := ui s; trace := trace s; subscribed := subscribed s;
     hasCleanup := hasCleanup s; task := task s; phase := phase s;
     crashed := c |}.

(** ** A state monad with exceptions

    A statement either completes normally or throws; what it did to the
    state before throwing stays done. *)

Inductive completion (A : Type) : Type :=
| Normal (a : A)
| Throw (e : Error).
Arguments Normal {A} a.
Arguments Throw {A} e.

Definition M (A : Type) : Type := Sys -> completion A * Sys.

Definition ret {A : Type} (a : A) : M A := fun s => (Normal a, s).

Definition bind {A B : Type} (c : M A) (k : A -> M B) : M B :=
  fun s =>
    match c s with
    | (Normal a, s') => k a s'
    | (Throw e, s') => (Throw e, s')
    end.

Definition throw {A : Type} (e : Error) : M A := fun s => (Throw e, s).

Definition try_catch {A : Type} (body : M A) (handler : Error -> M A) : M A :=
  fun s =>
    match body s with
    | (Normal a, s') => (Normal a, s')
    | (Throw e, s') => handler e s'
    end.

Declare Scope js_scope.
Delimit Scope js_scope with js.
Notation "x <- c ;; k" := (bind c (fun x => k))
  (at level 61, c at next level, right associativity) : js_scope.
Notation "c ;; k" := (bind c (fun _ => k))
  (at level 61, right associativity) : js_scope.
Open Scope js_scope.

Definition modify_ui (f : AppState -> AppState) : M unit :=
  fun s => (Normal tt, with_ui f s).

Definition emit (e : Effect) : M unit :=
  fun s => (Normal tt, with_trace (trace s ++ [e]) s).

(** An SDK call: recorded in the trace, then it returns or throws. *)
Definition sdk {A : Type} (e : Effect) (answer : Error + A) : M A :=
  emit e ;;
  match answer with
  | inr a => ret a
  | inl err => throw err
  end.

Definition setDb (v : Firestore) : M unit := modify_ui (with_db (Some v)).
Definition setAuth (v : Auth) : M unit := modify_ui (with_auth (Some v)).
Definition setUserId (v : option string) : M unit := modify_ui (with_userId v).
Definition setIsAuthReady (v : bool) : M unit := modify_ui (with_isAuthReady v).
Definition setLoadingMessage (v : string) : M unit := modify_ui (with_loadingMessage v).
Definition setActiveTab (v : string) : M unit := modify_ui (with_activeTab v).
Definition setUserStatus (v : string) : M unit := modify_ui (with_userStatus (Some v)).
Definition console_error (label : string) (e : Error) : M unit :=
  emit (ConsoleError label e).

(** ** The program *)

Section Program.

Variable E : Env.

(** [!firebaseConfig || !Object.keys(firebaseConfig).length] *)
Definition config_missing : bool :=
  if negb (truthy (firebaseConfig E)) then true
  else Nat.eqb (List.length (Object_keys (firebaseConfig E))) 0.

(** The callback handed to [onAuthStateChanged]. *)
Definition authListener (user : option User) : M unit :=
  match user with
  | Some u =>
      setUserId (Some (uid u)) ;;
      setUserStatus ("Logged in as: " ++ substring 0 8 (uid u) ++ "...")
  | None =>
      setUserId None ;;
      setUserStatus "Authentication failed or not started."
  end ;;
  setIsAuthReady true ;;
  setLoadingMessage
    (if truthy_obj user
     then "Authentication successful. Ready to load data."
     else "Authentication established.").

(** [onAuthStateChanged(firestoreAuth, listener)]: when the call returns,
    the listener is registered with the provider. *)
Definition registerListener (a : Auth) : M unit :=
  sdk (CallOnAuthStateChanged a) (onAuthStateChanged E a) ;;
  fun s => (Normal tt, with_subscribed true s).

(** [attemptSignIn()] up to its first [await]: an async function runs
    synchronously until it suspends, so the first sign-in call is made
    inside the effect.  How the call ends (fulfilled, rejected, or thrown
    at once, which the enclosing [try] treats like a rejection) is told
    by the event that resumes the function. *)
Definition attemptSignIn_start (a : Auth) : M unit :=
  match initialAuthToken E with
  | Some token =>
      if truthy_str (Some token)
      then emit (CallSignInWithCustomToken a token)
      else emit (CallSignInAnonymously a)
  | None => emit (CallSignInAnonymously a)
  end ;;
  fun s => (Normal tt, with_task (AwaitingFirst a) s).

(** [attemptSignIn] resumed when the awaited promise settles. *)
Definition attemptSignIn_resume (r : Error + unit) : M unit :=
  fun s =>
    match task s, r with
    | AwaitingFirst a, inr _ => (Normal tt, with_task Fulfilled s)
    | AwaitingFirst a, inl error =>
        (console_error "Authentication error:" error ;;
         emit (CallSignInAnonymously a) ;;
         fun s' => (Normal tt, with_task (AwaitingFallback a) s')) s
    | AwaitingFallback a, inr _ => (Normal tt, with_task Fulfilled s)
    | AwaitingFallback a, inl error => (Normal tt, with_task (Rejected error) s)
    | _, _ => (Normal tt, s)
    end.

(** The body of the bootstrap [useEffect].  The result tells whether a
    cleanup function was returned. *)
Definition bootstrap : M bool :=
  if config_missing then
    setLoadingMessage
      "Firebase configuration missing. Cannot proceed with data storage." ;;
    ret false
  else
    try_catch
      (app <- sdk (CallInitializeApp (firebaseConfig E))
                  (initializeApp E (firebaseConfig E)) ;;
       firestoreDb <- sdk (CallGetFirestore app) (getFirestore E app) ;;
       firestoreAuth <- sdk (CallGetAuth app) (getAuth E app) ;;
       setDb firestoreDb ;;
       setAuth firestoreAuth ;;
       registerListener firestoreAuth ;;
       attemptSignIn_start firestoreAuth ;;
       ret true)
      (fun e =>
         setLoadingMessage ("Failed to initialize Firebase: " ++ message e) ;;
         console_error "Firebase Initialization Error:" e ;;
         ret false).

(** The cleanup of the effect, when there is one: [unsubscribe()]. *)
Definition cleanup : M unit :=
  emit CallUnsubscribe ;;
  fun s => (Normal tt, with_subscribed false s).

(** [getPrivateCollectionRef(collectionName)] *)
Definition getPrivateCollectionRef (st : AppState) (collectionName : string)
  : completion (option CollectionReference) :=
  match db st, userId st with
  | Some d, Some u =>
      if negb (truthy_str (Some u)) then Normal None
      else
        match collection E d
                ("artifacts/" ++ appId E ++ "/users/" ++ u ++ "/" ++ collectionName)
        with
        | inr ref => Normal (Some ref)
        | inl e => Throw e
        end
  | _, _ => Normal None
  end.

(** ** Rendering *)

Inductive Icon : Type := MessageSquare | Calendar | BookOpen | Users.

(** The element tree a render returns.  Of the attributes only
    [className] and [onClick] are kept; a button's handler
    [() => setActiveTab(name)] is represented by [name]. *)
Inductive Node : Type :=
| Text (s : string)
| Elem (tag : string) (className : string) (children : list Node)
| ButtonEl (onClick : string) (className : string) (children : list Node)
| IconEl (icon : Icon) (className : string).

Definition LoadingScreen (st : AppState) : Node :=
  Elem "div" "flex items-center justify-center min-h-screen bg-gray-50 p-4"
    [Elem "div" "text-center p-6 bg-white rounded-xl shadow-lg"
       [Elem "svg" "animate-spin h-8 w-8 text-indigo-600 mx-auto mb-3"
          [Elem "circle" "opacity-25" [];
           Elem "path" "opacity-75" []];
        Elem "p" "text-gray-700 font-medium" [Text (loadingMessage st)];
        Elem "p" "text-sm text-gray-500 mt-1" [Text "Authenticating user..."]]].

Definition placeholder (caption : string) : Node :=
  Elem "div"
    "h-full flex items-center justify-center text-gray-500 border-2 border-dashed border-gray-200 rounded-xl p-4"
    [Elem "p" "text-xl font-semibold" [Text caption]].

(** The three placeholder components; they take no props, so what
    [renderContent] passes them is dropped. *)
Definition ChatView (_ : option Firestore) (_ : option string) (_ : option Auth) : Node :=
  placeholder "AI Chat Assistant (To be built in Step 7)".

Definition ScheduleView (_ : option Firestore) (_ : option string) (_ : option Auth) : Node :=
  placeholder "Study Schedule/Reminders (To be built in Step 8)".

Definition NotesView (_ : option Firestore) (_ : option string) (_ : option Auth) : Node :=
  placeholder "Quick Notes Storage (To be built in Step 9)".

Definition renderContent (st : AppState) : Node :=
  if String.eqb (activeTab st) "Chat" then
    ChatView (db st) (userId st) (auth st)
  else if String.eqb (activeTab st) "Schedule" then
    ScheduleView (db st) (userId st) (auth st)
  else if String.eqb (activeTab st) "Notes" then
    NotesView (db st) (userId st) (auth st)
  else
    ChatView (db st) (userId st) (auth st).

Definition nl : string := String (ascii_of_nat 10) EmptyString.

Definition TabButton (st : AppState) (name : string) (icon : Icon) : Node :=
  ButtonEl name
    (nl ++ "        flex items-center justify-center px-4 py-2 transition-all duration-200"
     ++ nl ++ "        "
     ++ (if String.eqb (activeTab st) name
         then "bg-indigo-600 text-white shadow-lg shadow-indigo-500/50"
         else "text-gray-600 hover:text-indigo-600 hover:bg-indigo-50 bg-white")
     ++ nl ++ "        rounded-xl" ++ nl ++ "      ")
    [IconEl icon "w-5 h-5 mr-2";
     Elem "span" "font-medium text-sm hidden sm:inline" [Text name]].

Definition Header (st : AppState) : Node :=
  Elem "header" "bg-white shadow-md p-4 sticky top-0 z-10"
    [Elem "div" "max-w-7xl mx-auto flex justify-between items-center"
       [Elem "h1" "text-2xl font-extrabold text-indigo-700 flex items-center"
          [IconEl BookOpen "w-6 h-6 mr-2 text-indigo-500";
           Text "AI Student Assistant"];
        Elem "div" "flex space-x-2 bg-gray-50 p-1 rounded-xl shadow-inner"
          [TabButton st "Chat" MessageSquare;
           TabButton st "Schedule" Calendar;
           TabButton st "Notes" BookOpen];
        Elem "p" "text-xs text-right text-gray-500 hidden sm:block"
          [Elem "span" "font-semibold text-indigo-500" [Text "User ID:"];
           Text " ";
           Text (match userId st with
                 | Some u => if truthy_str (Some u) then u else "N/A"
                 | None => "N/A"
                 end);
           Elem "br" "" [];
           Elem "span" "text-gray-400"
             (match userStatus st with
              | Some status => [Text status]
              | None => []
              end)]]].

Definition MainArea (st : AppState) : Node :=
  Elem "main" "flex-grow p-4 md:p-8 max-w-7xl w-full mx-auto"
    [Elem "div" "bg-white p-6 rounded-2xl shadow-xl h-[80vh]"
       [renderContent st]].

Definition Footer : Node :=
  Elem "footer" "w-full text-center p-3 text-sm text-gray-500 border-t border-gray-200"
    [Text "Hackathon Project "; Text (appId E)].

(** What the component function [App] returns for a given state. *)
Definition render (st : AppState) : Node :=
  if negb (isAuthReady st) then LoadingScreen st
  else
    Elem "div" "min-h-screen bg-gray-100 flex flex-col font-sans"
      [Header st; MainArea st; Footer].

(** The click handlers, tags and texts present in a tree. *)
Fixpoint onClicks (n : Node) : list string :=
  match n with
  | Text _ => []
  | Elem _ _ kids => flat_map onClicks kids
  | ButtonEl h _ kids => h :: flat_map onClicks kids
  | IconEl _ _ => []
  end.

Fixpoint tags (n : Node) : list string :=
  match n with
  | Text _ => []
  | Elem t _ kids => t :: flat_map tags kids
  | ButtonEl _ _ kids => "button" :: flat_map tags kids
  | IconEl _ _ => []
  end.

Fixpoint texts (n : Node) : list string :=
  match n with
  | Text s => [s]
  | Elem _ _ kids => flat_map texts kids
  | ButtonEl _ _ kids => flat_map texts kids
  | IconEl _ _ => []
  end.

(** ** Events and the transition function *)

Inductive Event : Type :=
| Mount                                   (* React runs the effect *)
| SignInSettled (r : Error + unit)        (* the awaited sign-in settles *)
| AuthStateChanged (user : option User)   (* the provider calls the listener *)
| Click (name : string)                   (* the user clicks a tab button *)
| Unmount.                                (* React tears the component down *)

Definition awaiting (t : SignInTask) : bool :=
  match t with
  | AwaitingFirst _ | AwaitingFallback _ => true
  | _ => false
  end.

Definition is_mounted (p : Phase) : bool :=
  match p with Mounted => true | _ => false end.

Definition is_before_effect (p : Phase) : bool :=
  match p with BeforeEffect => true | _ => false end.

(** One event, when it can happen in [s]: the effect runs once, on mount;
    a promise settles only while [attemptSignIn] awaits it; the provider
    calls the listener only while it is registered; only a button that is
    on screen can be clicked.  The setter calls of one callback are
    applied together (React batches them), so a callback is one step. *)
Definition step (s : Sys) (ev : Event) : option Sys :=
  match ev with
  | Mount =>
      if is_before_effect (phase s) then
        match bootstrap s with
        | (Normal c, s') => Some (with_hasCleanup c (with_phase Mounted s'))
        | (Throw e, s') => Some (with_crashed (Some e) (with_phase Mounted s'))
        end
      else None
  | SignInSettled r =>
      if awaiting (task s) then Some (snd (attemptSignIn_resume r s))
      else None
  | AuthStateChanged user =>
      if subscribed s then Some (snd (authListener user s)) else None
  | Click name =>
      if is_mounted (phase s)
         && existsb (String.eqb name) (onClicks (render (ui s)))
      then Some (snd (setActiveTab name s))
      else None
  | Unmount =>
      if is_mounted (phase s) then
        Some (with_phase Unmounted
                (if hasCleanup s then snd (cleanup s) else s))
      else None
  end.

Fixpoint run (s : Sys) (evs : list Event) : option Sys :=
  match evs with
  | [] => Some s
  | ev :: rest =>
      match step s ev with
      | Some s' => run s' rest
      | None => None
      end
  end.

Definition reachable (s : Sys) : Prop :=
  exists evs, run initialSys evs = Some s.

End Program.

(** ** Vocabulary of the statements *)

Definition is_signin (e : Effect) : bool :=
  match e with
  | CallSignInWithCustomToken _ _ | CallSignInAnonymously _ => true
  | _ => false
  end.

Definition is_anonymous_signin (e : Effect) : bool :=
  match e with
  | CallSignInAnonymously _ => true
  | _ => false
  end.

(** The sign-in calls of a trace, in order. *)
Definition signins (t : list Effect) : list Effect := filter is_signin t.

Definition is_auth_effect (e : Effect) : bool :=
  match e with
  | CallSignInWithCustomToken _ _ | CallSignInAnonymously _ => true
  | ConsoleError _ _ => true
  | _ => false
  end.

(** The sign-in calls and console errors of a trace, in order. *)
Definition auth_log (t : list Effect) : list Effect := filter is_auth_effect t.

(** How often anonymous sign-in was attempted. *)
Definition anonymous_attempts (t : list Effect) : nat :=
  List.length (filter is_anonymous_signin t).

(** The synchronous part of client initialization throws [e]. *)
Inductive init_throws (E : Env) (e : Error) : Prop :=
| throws_initializeApp :
    initializeApp E (firebaseConfig E) = inl e -> init_throws E e
| throws_getFirestore app :
    initializeApp E (firebaseConfig E) = inr app ->
    getFirestore E app = inl e -> init_throws E e
| throws_getAuth app d :
    initializeApp E (firebaseConfig E) = inr app ->
    getFirestore E app = inr d ->
    getAuth E app = inl e -> init_throws E e
| throws_onAuthStateChanged app d a :
    initializeApp E (firebaseConfig E) = inr app ->
    getFirestore E app = inr d ->
    getAuth E app = inr a ->
    onAuthStateChanged E a = inl e -> init_throws E e.

(** Client initialization goes through, with these handles. *)
Definition init_succeeds (E : Env) (app : FirebaseApp) (d : Firestore) (a : Auth) : Prop :=
  initializeApp E (firebaseConfig E) = inr app /\
  getFirestore E app = inr d /\
  getAuth E app = inr a /\
  onAuthStateChanged E a = inr tt.

(** The first sign-in call made by [attemptSignIn]. *)
Definition first_signin (E : Env) (a : Auth) : Effect :=
  match initialAuthToken E with
  | Some token =>
      if truthy_str (Some token) then CallSignInWithCustomToken a token
      else CallSignInAnonymously a
  | None => CallSignInAnonymously a
  end.

(** [attemptSignIn] has made its last call. *)
Definition past_first_await (t : SignInTask) : bool :=
  match t with
  | AwaitingFallback _ | Fulfilled | Rejected _ => true
  | NotStarted | AwaitingFirst _ => false
  end.

(** Nothing happens to a component whose effect found no configuration,
    apart from tear-down. *)
Definition blocked (s : Sys) : Prop :=
  isAuthReady (ui s) = false /\
  trace s = [] /\
  subscribed s = false /\
  hasCleanup s = false /\
  task s = NotStarted /\
  (phase s <> BeforeEffect ->
   loadingMessage (ui s) =
   "Firebase configuration missing. Cannot proceed with data storage.").

(** Every sign-in call of the trace comes after a call of
    [onAuthStateChanged] that returned. *)
Definition listener_first (E : Env) (t : list Effect) : Prop :=
  forall pre eff post,
    t = (pre ++ eff :: post)%list -> is_signin eff = true ->
    exists a, In (CallOnAuthStateChanged a) pre /\
              onAuthStateChanged E a = inr tt.

(** What holds of every reachable state, for the order of calls. *)
Definition ordered (E : Env) (s : Sys) : Prop :=
  (phase s = BeforeEffect -> trace s = [] /\ task s = NotStarted) /\
  listener_first E (trace s) /\
  (forall a, task s = AwaitingFirst a ->
             In (CallOnAuthStateChanged a) (trace s) /\
             onAuthStateChanged E a = inr tt).

(** ** Concrete environments *)

Definition demoConfig : Json :=
  JObj [("apiKey", JStr "demo-key"); ("projectId", JStr "demo-project")].

(** An SDK whose initialization calls all succeed. *)
Definition workingEnv (cfg : Json) (token : option string) : Env :=
  {| g_app_id := Some "demo-app";
     firebaseConfig := cfg;
     initialAuthToken := token;
     initializeApp := fun _ => inr (AppHandle 1);
     getFirestore := fun _ => inr (FirestoreHandle 2);
     getAuth := fun _ => inr (AuthHandle 3);
     onAuthStateChanged := fun _ => inr tt;
     collection := fun _ _ => inr (CollectionHandle 4) |}.

(** An SDK that refuses the configuration. *)
Definition brokenEnv : Env :=
  {| g_app_id := None;
     firebaseConfig := demoConfig;
     initialAuthToken := None;
     initializeApp := fun _ => inl {| message := "invalid-api-key" |};
     getFirestore := fun _ => inr (FirestoreHandle 2);
     getAuth := fun _ => inr (AuthHandle 3);
     onAuthStateChanged := fun _ => inr tt;
     collection := fun _ _ => inr (CollectionHandle 4) |}.

Definition demoEnv : Env := workingEnv demoConfig None.

(** The state [demoEnv] is in after the given events. *)
Definition demo_after (evs : list Event) : Sys :=
  match run demoEnv initialSys evs with
  | Some s => s
  | None => initialSys
  end.

(** The state after the given events when a token is supplied. *)
Definition demo_token_after (evs : list Event) : Sys :=
  match run (workingEnv demoConfig (Some "expired")) initialSys evs with
  | Some s => s
  | None => initialSys
  end.

Definition alice : User := {| uid := "u-alice-0123456789" |}.

Definition networkError : Error := {| message := "auth/network-request-failed" |}.

(** ** Vocabulary for the rest of the component *)

(** The names of the three tab buttons of the header. *)
Definition tab_labels : list string := ["Chat"; "Schedule"; "Notes"].

(** Handler and class of every button of a tree, in document order. *)
Fixpoint buttons (n : Node) : list (string * string) :=
  match n with
  | Text _ => []
  | Elem _ _ kids => flat_map buttons kids
  | ButtonEl h c kids => (h, c) :: flat_map buttons kids
  | IconEl _ _ => []
  end.

(** The class string of a tab button, for either outcome of
    [activeTab === name]. *)
Definition tabButtonClass (active : bool) : string :=
  nl ++ "        flex items-center justify-center px-4 py-2 transition-all duration-200"
  ++ nl ++ "        "
  ++ (if active
      then "bg-indigo-600 text-white shadow-lg shadow-indigo-500/50"
      else "text-gray-600 hover:text-indigo-600 hover:bg-indigo-50 bg-white")
  ++ nl ++ "        rounded-xl" ++ nl ++ "      ".

(** The buttons of a tree that are drawn as the selected one. *)
Definition highlighted (n : Node) : list string :=
  map fst (filter (fun b => String.eqb (snd b) (tabButtonClass true)) (buttons n)).

Definition is_console_error (e : Effect) : bool :=
  match e with ConsoleError _ _ => true | _ => false end.

Definition is_token_signin (e : Effect) : bool :=
  match e with CallSignInWithCustomToken _ _ => true | _ => false end.

Definition is_unsubscribe (e : Effect) : bool :=
  match e with CallUnsubscribe => true | _ => false end.

Definition is_registration (e : Effect) : bool :=
  match e with CallOnAuthStateChanged _ => true | _ => false end.

(** The auth handle a call was made on, for the calls that take one. *)
Definition auth_of (e : Effect) : option Auth :=
  match e with
  | CallOnAuthStateChanged a => Some a
  | CallSignInWithCustomToken a _ => Some a
  | CallSignInAnonymously a => Some a
  | _ => None
  end.

(** The template literal of [getPrivateCollectionRef], as a function of
    the application id, the session identity and the collection name. *)
Definition privatePath (app u collectionName : string) : string :=
  "artifacts/" ++ app ++ "/users/" ++ u ++ "/" ++ collectionName.

(** The string holds no path separator. *)
Fixpoint slash_free (s : string) : bool :=
  match s with
  | EmptyString => true
  | String c rest => negb (Ascii.eqb c "/") && slash_free rest
  end.

(** The configurations the effect goes on with: a non-empty object, a
    non-empty array, or a non-empty string. *)
Definition has_own_keys (v : Json) : bool :=
  match v with
  | JObj (_ :: _) => true
  | JArr (_ :: _) => true
  | JStr (String _ _) => true
  | _ => false
  end.

(** A call of client initialization. *)
Definition is_init_call (e : Effect) : bool :=
  match e with
  | CallInitializeApp _ | CallGetFirestore _ | CallGetAuth _
  | CallOnAuthStateChanged _ => true
  | _ => false
  end.

(** A mounted component that will never get ready: nothing is registered,
    nothing is pending, the loading message is [msg] and the trace [t]. *)
Definition stuck (msg : string) (t : list Effect) (s : Sys) : Prop :=
  isAuthReady (ui s) = false /\
  subscribed s = false /\
  hasCleanup s = false /\
  task s = NotStarted /\
  phase s <> BeforeEffect /\
  loadingMessage (ui s) = msg /\
  trace s = t.

(** How subscription, cleanup and the unsubscribe call go with the phase. *)
Definition lifecycle (E : Env) (s : Sys) : Prop :=
  match phase s with
  | BeforeEffect =>
      subscribed s = false /\ hasCleanup s = false /\ trace s = [] /\
      task s = NotStarted
  | Mounted =>
      subscribed s = hasCleanup s /\ filter is_unsubscribe (trace s) = []
  | Unmounted =>
      subscribed s = false /\
      filter is_unsubscribe (trace s)
      = if hasCleanup s then [CallUnsubscribe] else []
  end /\
  (hasCleanup s = true ->
   exists a, filter is_registration (trace s) = [CallOnAuthStateChanged a] /\
             onAuthStateChanged E a = inr tt).

(** The state an environment is in after the given events (the initial
    state when they cannot happen in that order). *)
Definition state_after (E : Env) (evs : list Event) : Sys :=
  match run E initialSys evs with
  | Some s => s
  | None => initialSys
  end.

(** What resuming [attemptSignIn] adds to the trace, and where it leaves
    the function. *)
Definition resume_calls (t : SignInTask) (r : Error + unit) : list Effect :=
  match t, r with
  | AwaitingFirst a, inl error =>
      [ConsoleError "Authentication error:" error; CallSignInAnonymously a]
  | _, _ => []
  end.

Definition resume_task (t : SignInTask) (r : Error + unit) : SignInTask :=
  match t, r with
  | AwaitingFirst a, inr _ => Fulfilled
  | AwaitingFirst a, inl _ => AwaitingFallback a
  | AwaitingFallback a, inr _ => Fulfilled
  | AwaitingFallback a, inl error => Rejected error
  | t', _ => t'
  end.

(** The sign-in calls made so far, by where [attemptSignIn] stands. *)
Definition signin_shape (E : Env) (s : Sys) : Prop :=
  (phase s = BeforeEffect -> trace s = [] /\ task s = NotStarted) /\
  match task s with
  | NotStarted => signins (trace s) = []
  | AwaitingFirst a => signins (trace s) = [first_signin E a]
  | AwaitingFallback a =>
      signins (trace s) = [first_signin E a; CallSignInAnonymously a]
  | Fulfilled | Rejected _ =>
      exists a, signins (trace s) = [first_signin E a] \/
                signins (trace s) = [first_signin E a; CallSignInAnonymously a]
  end.

(** The handles in the component state are the ones the SDK returned, and
    every call that takes an auth handle was made on the stored one. *)
Definition handles (E : Env) (s : Sys) : Prop :=
  ((db (ui s) = None /\ auth (ui s) = None) \/
   (exists app d a,
       initializeApp E (firebaseConfig E) = inr app /\
       getFirestore E app = inr d /\
       getAuth E app = inr a /\
       db (ui s) = Some d /\ auth (ui s) = Some a)) /\
  (forall c a', In c (trace s) -> auth_of c = Some a' -> auth (ui s) = Some a') /\
  (forall a', task s = AwaitingFirst a' -> auth (ui s) = Some a') /\
  (phase s = BeforeEffect ->
   trace s = [] /\ task s = NotStarted /\
   db (ui s) = None /\ auth (ui s) = None).

(** What the listener last wrote, read back from a state. *)
Definition status_consistent (s : Sys) : Prop :=
  (phase s = BeforeEffect -> subscribed s = false /\ isAuthReady (ui s) = false) /\
  if isAuthReady (ui s) then
    match userId (ui s) with
    | Some u =>
        userStatus (ui s)
        = Some ("Logged in as: " ++ substring 0 8 u ++ "...") /\
        loadingMessage (ui s) = "Authentication successful. Ready to load data."
    | None =>
        userStatus (ui s) = Some "Authentication failed or not started." /\
        loadingMessage (ui s) = "Authentication established."
    end
  else userStatus (ui s) = None /\ userId (ui s) = None.

(** ** Module scope: the host's globals and the parse of the configuration *)

(** The five SDK functions the component imports. *)
Record Sdk : Type := {
  sdk_initializeApp : Json -> Error + FirebaseApp;
  sdk_getFirestore : FirebaseApp -> Error + Firestore;
  sdk_getAuth : FirebaseApp -> Error + Auth;
  sdk_onAuthStateChanged : Auth -> Error + unit;
  sdk_collection : Firestore -> string -> Error + CollectionReference
}.

(** What the page is loaded into: the three globals of the hosting
    environment, each defined or not, the builtin [JSON.parse], which
    returns a value or throws, and the SDK. *)
Record Host : Type := {
  host_app_id : option string;              (* __app_id *)
  host_firebase_config : option string;     (* __firebase_config, a text *)
  host_initial_auth_token : option string;  (* __initial_auth_token *)
  JSON_parse : string -> Error + Json;
  host_sdk : Sdk
}.

(** [typeof __firebase_config !== 'undefined' ? __firebase_config : '{}'] *)
Definition config_text (H : Host) : string :=
  match host_firebase_config H with
  | Some text => text
  | None => "{}"
  end.

(** The evaluation of the module: the three constants of lines 12 to 14.
    [JSON.parse] is called at module scope, in no [try]; when it throws,
    the module does not load and no component is ever defined. *)
Definition loadModule (H : Host) : completion Env :=
  match JSON_parse H (config_text H) with
  | inl e => Throw e
  | inr cfg =>
      Normal {| g_app_id := host_app_id H;
                firebaseConfig := cfg;
                initialAuthToken := host_initial_auth_token H;
                initializeApp := sdk_initializeApp (host_sdk H);
                getFirestore := sdk_getFirestore (host_sdk H);
                getAuth := sdk_getAuth (host_sdk H);
                onAuthStateChanged := sdk_onAuthStateChanged (host_sdk H);
                collection := sdk_collection (host_sdk H) |}
  end.

(** The page on host [H] comes up and never crashes: the module loads and
    no run of the component reaches a crashed state. *)
Definition shell_does_not_crash (H : Host) : Prop :=
  exists E, loadModule H = Normal E /\
            forall s, reachable E s -> crashed s = None.

Definition quote : string := String (ascii_of_nat 34) EmptyString.

(** The text of [demoConfig], as [JSON.stringify] writes it. *)
Definition demoConfigText : string :=
  "{" ++ quote ++ "apiKey" ++ quote ++ ":" ++ quote ++ "demo-key" ++ quote
  ++ "," ++ quote ++ "projectId" ++ quote ++ ":" ++ quote ++ "demo-project"
  ++ quote ++ "}".

(** A configuration text that is not JSON: the keys are not quoted. *)
Definition malformedConfigText : string := "{apiKey: demo-key}".

(** [JSON.parse] on the texts of the examples below, and only on them:
    the text of the empty object, the text of [demoConfig], and the
    malformed text, for which the builtin throws a SyntaxError. *)
Definition exampleParse (text : string) : Error + Json :=
  if String.eqb text "{}" then inr (JObj [])
  else if String.eqb text demoConfigText then inr demoConfig
  else inl {| message := "Expected property name or '}' in JSON at position 1" |}.

Definition workingSdk : Sdk :=
  {| sdk_initializeApp := fun _ => inr (AppHandle 1);
     sdk_getFirestore := fun _ => inr (FirestoreHandle 2);
     sdk_getAuth := fun _ => inr (AuthHandle 3);
     sdk_onAuthStateChanged := fun _ => inr tt;
     sdk_collection := fun _ _ => inr (CollectionHandle 4) |}.

(** A host that supplies a well-formed configuration text. *)
Definition demoHost : Host :=
  {| host_app_id := Some "demo-app";
     host_firebase_config := Some demoConfigText;
     host_initial_auth_token := None;
     JSON_parse := exampleParse;
     host_sdk := workingSdk |}.

(** A host that supplies the malformed configuration text. *)
Definition malformedHost : Host :=
  {| host_app_id := Some "demo-app";
     host_firebase_config := Some malformedConfigText;
     host_initial_auth_token := None;
     JSON_parse := exampleParse;
     host_sdk := workingSdk |}.

(** ** Proof support *)

Ltac unfold_js :=
  unfold bootstrap, registerListener, attemptSignIn_start,
    attemptSignIn_resume, authListener, cleanup, sdk, console_error, emit,
    setDb, setAuth, setUserId, setIsAuthReady, setLoadingMessage,
    setActiveTab, setUserStatus, modify_ui, try_catch, bind, ret, throw in *.

Lemma Sys_ext (s1 s2 : Sys) :
  ui s1 = ui s2 -> trace s1 = trace s2 -> subscribed s1 = subscribed s2 ->
  hasCleanup s1 = hasCleanup s2 -> task s1 = task s2 -> phase s1 = phase s2 ->
  crashed s1 = crashed s2 -> s1 = s2.
Proof. destruct s1, s2; simpl; congruence. Qed.

Section Facts.

Variable E : Env.

Lemma run_app (s : Sys) (evs1 evs2 : list Event) :
  run E s (evs1 ++ evs2) =
  match run E s evs1 with
  | Some s' => run E s' evs2
  | None => None
  end.
Proof.
  revert s; induction evs1 as [|ev evs1 IH]; intros s; simpl.
  - reflexivity.
  - destruct (step E s ev); [apply IH | reflexivity].
Qed.

(** An invariant of [step] holds along every run. *)
Lemma run_invariant (P : Sys -> Prop) :
  (forall s ev s', P s -> step E s ev = Some s' -> P s') ->
  forall evs s s', P s -> run E s evs = Some s' -> P s'.
Proof.
  intros Hstep; induction evs as [|ev evs IH]; intros s s' HP Hrun; simpl in Hrun.
  - now inversion Hrun; subst.
  - destruct (step E s ev) as [s1|] eqn:Hs; [|discriminate].
    eapply IH; [|eassumption]. eapply Hstep; eassumption.
Qed.

Lemma reachable_invariant (P : Sys -> Prop) :
  P initialSys ->
  (forall s ev s', P s -> step E s ev = Some s' -> P s') ->
  forall s, reachable E s -> P s.
Proof.
  intros H0 Hstep s [evs Hrun]. eapply run_invariant; eassumption.
Qed.

Lemma init_cases :
  (exists e, init_throws E e) \/ (exists app d a, init_succeeds E app d a).
Proof.
  destruct (initializeApp E (firebaseConfig E)) as [e|app] eqn:H1.
  { left; exists e; now apply throws_initializeApp. }
  destruct (getFirestore E app) as [e|d] eqn:H2.
  { left; exists e; now apply throws_getFirestore with app. }
  destruct (getAuth E app) as [e|a] eqn:H3.
  { left; exists e; now apply throws_getAuth with app d. }
  destruct (onAuthStateChanged E a) as [e|[]] eqn:H4.
  { left; exists e; now apply throws_onAuthStateChanged with app d a. }
  right; exists app, d, a. now repeat split.
Qed.

(** The three ways the effect can go. *)
Lemma bootstrap_blocked (s : Sys) :
  config_missing E = true ->
  bootstrap E s =
  (Normal false,
   with_ui (with_loadingMessage
              "Firebase configuration missing. Cannot proceed with data storage.") s).
Proof. intros Hc. unfold_js. now rewrite Hc. Qed.

Lemma bootstrap_success (s : Sys) (app : FirebaseApp) (d : Firestore) (a : Auth) :
  config_missing E = false -> init_succeeds E app d a ->
  bootstrap E s =
  (Normal true,
   {| ui := with_auth (Some a) (with_db (Some d) (ui s));
      trace := trace s ++ [CallInitializeApp (firebaseConfig E);
                           CallGetFirestore app; CallGetAuth app;
                           CallOnAuthStateChanged a; first_signin E a];
      subscribed := true;
      hasCleanup := hasCleanup s;
      task := AwaitingFirst a;
      phase := phase s;
      crashed := crashed s |}).
Proof.
  intros Hc (H1 & H2 & H3 & H4). unfold first_signin. unfold_js.
  rewrite Hc, H1; simpl. rewrite H2; simpl. rewrite H3; simpl.
  rewrite H4; simpl.
  destruct (initialAuthToken E) as [token|]; simpl;
    [destruct (token =? "")|]; simpl;
    (f_equal; apply Sys_ext; cbn; try reflexivity;
     repeat rewrite <- app_assoc; reflexivity).
Qed.

Lemma bootstrap_failure (s : Sys) (e : Error) :
  config_missing E = false -> init_throws E e ->
  exists s',
    bootstrap E s = (Normal false, s') /\
    loadingMessage (ui s') = "Failed to initialize Firebase: " ++ message e /\
    userId (ui s') = userId (ui s) /\
    isAuthReady (ui s') = isAuthReady (ui s) /\
    activeTab (ui s') = activeTab (ui s) /\
    userStatus (ui s') = userStatus (ui s) /\
    (exists calls : list Effect,
        trace s' = (trace s ++ calls ++ [ConsoleError "Firebase Initialization Error:" e])%list /\
        signins calls = []) /\
    subscribed s' = subscribed s /\
    hasCleanup s' = hasCleanup s /\
    task s' = task s /\
    phase s' = phase s /\
    crashed s' = crashed s.
Proof.
  intros Hc Ht. unfold_js. rewrite Hc.
  destruct Ht as [H1|app H1 H2|app d H1 H2 H3|app d a H1 H2 H3 H4].
  - rewrite H1; simpl. eexists; split; [reflexivity|]; simpl.
    repeat split.
    exists [CallInitializeApp (firebaseConfig E)].
    rewrite <- !app_assoc. now split.
  - rewrite H1; simpl. rewrite H2; simpl. eexists; split; [reflexivity|]; simpl.
    repeat split.
    exists [CallInitializeApp (firebaseConfig E); CallGetFirestore app].
    rewrite <- !app_assoc. now split.
  - rewrite H1; simpl. rewrite H2; simpl. rewrite H3; simpl.
    eexists; split; [reflexivity|]; simpl.
    repeat split.
    exists [CallInitializeApp (firebaseConfig E); CallGetFirestore app; CallGetAuth app].
    rewrite <- !app_assoc. now split.
  - rewrite H1; simpl. rewrite H2; simpl. rewrite H3; simpl. rewrite H4; simpl.
    eexists; split; [reflexivity|]; simpl.
    repeat split.
    exists [CallInitializeApp (firebaseConfig E); CallGetFirestore app;
            CallGetAuth app; CallOnAuthStateChanged a].
    rewrite <- !app_assoc. now split.
Qed.

(** What the effect leaves alone. *)
Lemma bootstrap_frame (s : Sys) :
  userId (ui (snd (bootstrap E s))) = userId (ui s) /\
  isAuthReady (ui (snd (bootstrap E s))) = isAuthReady (ui s) /\
  activeTab (ui (snd (bootstrap E s))) = activeTab (ui s) /\
  userStatus (ui (snd (bootstrap E s))) = userStatus (ui s) /\
  crashed (snd (bootstrap E s)) = crashed s /\
  phase (snd (bootstrap E s)) = phase s /\
  hasCleanup (snd (bootstrap E s)) = hasCleanup s.
Proof.
  destruct (config_missing E) eqn:Hc.
  - rewrite bootstrap_blocked by assumption. simpl. repeat split.
  - destruct init_cases as [[e Ht]|(app & d & a & Hok)].
    + destruct (bootstrap_failure s e Hc Ht) as (s' & -> & H); simpl.
      intuition congruence.
    + rewrite (bootstrap_success s app d a Hc Hok). simpl. repeat split.
Qed.

Lemma bootstrap_returns (s : Sys) :
  exists c, fst (bootstrap E s) = Normal c.
Proof.
  destruct (config_missing E) eqn:Hc.
  - rewrite bootstrap_blocked by assumption. now exists false.
  - destruct init_cases as [[e Ht]|(app & d & a & Hok)].
    + destruct (bootstrap_failure s e Hc Ht) as (s' & -> & _). now exists false.
    + rewrite (bootstrap_success s app d a Hc Hok). now exists true.
Qed.

Lemma resume_frame (r : Error + unit) (s : Sys) :
  ui (snd (attemptSignIn_resume r s)) = ui s /\
  subscribed (snd (attemptSignIn_resume r s)) = subscribed s /\
  crashed (snd (attemptSignIn_resume r s)) = crashed s /\
  phase (snd (attemptSignIn_resume r s)) = phase s.
Proof.
  unfold_js. destruct (task s), r; simpl; repeat split.
Qed.

Lemma listener_sets_ready (user : option User) (s : Sys) :
  isAuthReady (ui (snd (authListener user s))) = true.
Proof. unfold_js. destruct user; reflexivity. Qed.

Lemma listener_sets_userId (user : option User) (s : Sys) :
  userId (ui (snd (authListener user s))) = option_map uid user.
Proof. unfold_js. destruct user; reflexivity. Qed.

(** Readiness is never taken back. *)
Lemma step_ready_stable (s : Sys) (ev : Event) (s' : Sys) :
  isAuthReady (ui s) = true -> step E s ev = Some s' ->
  isAuthReady (ui s') = true.
Proof.
  intros Hr Hs. destruct ev; simpl in Hs.
  - destruct (is_before_effect (phase s)); [|discriminate].
    pose proof (bootstrap_frame s) as (_ & Hb & _).
    destruct (bootstrap E s) as [[c|e] s1]; inversion Hs; subst; simpl in *; congruence.
  - destruct (awaiting (task s)); inversion Hs; subst.
    pose proof (resume_frame r s) as (Hu & _). now rewrite Hu.
  - destruct (subscribed s); inversion Hs; subst. apply listener_sets_ready.
  - destruct (_ && _); inversion Hs; subst. exact Hr.
  - destruct (is_mounted (phase s)); inversion Hs; subst.
    destruct (hasCleanup s); simpl; exact Hr.
Qed.

(** Only the listener touches readiness and the session identity. *)
Lemma step_other_frame (s : Sys) (ev : Event) (s' : Sys) :
  (forall u, ev <> AuthStateChanged u) -> step E s ev = Some s' ->
  isAuthReady (ui s') = isAuthReady (ui s) /\ userId (ui s') = userId (ui s).
Proof.
  intros Hev Hs. destruct ev; simpl in Hs.
  - destruct (is_before_effect (phase s)); [|discriminate].
    pose proof (bootstrap_frame s) as (Hu & Hb & _).
    destruct (bootstrap E s) as [[c|e] s1]; inversion Hs; subst; simpl in *; auto.
  - destruct (awaiting (task s)); inversion Hs; subst.
    pose proof (resume_frame r s) as (Hu & _). now rewrite Hu.
  - now elim (Hev user).
  - destruct (_ && _); inversion Hs; subst. now split.
  - destruct (is_mounted (phase s)); inversion Hs; subst.
    destruct (hasCleanup s); simpl; now split.
Qed.

Lemma run_ready_stable (evs : list Event) (s s' : Sys) :
  isAuthReady (ui s) = true -> run E s evs = Some s' ->
  isAuthReady (ui s') = true.
Proof.
  intros Hr. apply (run_invariant (fun x => isAuthReady (ui x) = true)); [|exact Hr].
  intros x ev x' Hx Hs. eapply step_ready_stable; eassumption.
Qed.

(** Once the listener has fired in a run, the run ends ready. *)
Lemma run_ready_after_listener (evs : list Event) (s s' : Sys) :
  run E s evs = Some s' ->
  (exists u, In (AuthStateChanged u) evs) ->
  isAuthReady (ui s') = true.
Proof.
  revert s; induction evs as [|ev evs IH]; intros s Hrun [u Hin].
  - destruct Hin.
  - simpl in Hrun. destruct (step E s ev) as [s1|] eqn:Hs; [|discriminate].
    destruct Hin as [->|Hin].
    + eapply run_ready_stable; [|eassumption].
      simpl in Hs. destruct (subscribed s); inversion Hs; subst.
      apply listener_sets_ready.
    + eapply IH; eauto.
Qed.

(** Without a listener call, readiness stays as it was. *)
Lemma run_ready_unchanged (evs : list Event) (s s' : Sys) :
  run E s evs = Some s' ->
  (forall u, ~ In (AuthStateChanged u) evs) ->
  isAuthReady (ui s') = isAuthReady (ui s).
Proof.
  revert s; induction evs as [|ev evs IH]; intros s Hrun Hno; simpl in Hrun.
  - now inversion Hrun.
  - destruct (step E s ev) as [s1|] eqn:Hs; [|discriminate].
    transitivity (isAuthReady (ui s1)).
    + apply IH; [assumption|]. intros u Hin. apply (Hno u). now right.
    + eapply step_other_frame; [|eassumption].
      intros u ->. apply (Hno u). now left.
Qed.

End Facts.

(** ** The model at work *)

Example config_missing_examples :
  map (fun cfg => config_missing (workingEnv cfg None))
      [JNull; JObj []; JArr []; JNum 7; JStr ""; JStr "ab"; demoConfig]
  = [true; true; true; true; true; false; false].
Proof. reflexivity. Qed.

Example signed_in_example :
  ui (demo_after [Mount; SignInSettled (inr tt); AuthStateChanged (Some alice);
                  Click "Schedule"])
  = {| db := Some (FirestoreHandle 2);
       auth := Some (AuthHandle 3);
       userId := Some "u-alice-0123456789";
       isAuthReady := true;
       loadingMessage := "Authentication successful. Ready to load data.";
       activeTab := "Schedule";
       userStatus := Some "Logged in as: u-alice-..." |}.
Proof. vm_compute; reflexivity. Qed.

Example click_needs_a_button :
  run demoEnv initialSys [Mount; Click "Notes"] = None /\
  run demoEnv initialSys [Mount; AuthStateChanged None; Click "Settings"] = None.
Proof. split; vm_compute; reflexivity. Qed.

Example broken_sdk_example :
  option_map (fun s => (loadingMessage (ui s), trace s, subscribed s, crashed s))
             (run brokenEnv initialSys [Mount])
  = Some ("Failed to initialize Firebase: invalid-api-key",
          [CallInitializeApp demoConfig;
           ConsoleError "Firebase Initialization Error:"
                        {| message := "invalid-api-key" |}],
          false, None).
Proof. vm_compute; reflexivity. Qed.

(** ** The view router and the loading gate *)

(** C6: the view router depends on the selector alone; each of the labels
    'Chat', 'Schedule' and 'Notes' yields its own placeholder, the three
    placeholders are pairwise different, and every other selector value
    yields the Chat placeholder. *)
Theorem renderContent_routes (st : AppState) :
  (activeTab st = "Chat" ->
   renderContent st = ChatView (db st) (userId st) (auth st)) /\
  (activeTab st = "Schedule" ->
   renderContent st = ScheduleView (db st) (userId st) (auth st)) /\
  (activeTab st = "Notes" ->
   renderContent st = NotesView (db st) (userId st) (auth st)) /\
  (activeTab st <> "Chat" -> activeTab st <> "Schedule" ->
   activeTab st <> "Notes" ->
   renderContent st = ChatView (db st) (userId st) (auth st)) /\
  (forall d u a d' u' a',
      ChatView d u a <> ScheduleView d' u' a' /\
      ChatView d u a <> NotesView d' u' a' /\
      ScheduleView d u a <> NotesView d' u' a') /\
  (forall st', activeTab st' = activeTab st ->
               renderContent st' = renderContent st).
Proof.
  unfold renderContent. repeat split.
  - now intros ->.
  - now intros ->.
  - now intros ->.
  - intros H1 H2 H3.
    apply String.eqb_neq in H1, H2, H3. now rewrite H1, H2, H3.
  - discriminate.
  - discriminate.
  - discriminate.
  - intros st' Heq. rewrite Heq.
    unfold ChatView, ScheduleView, NotesView. reflexivity.
Qed.

Lemma renderContent_routes_witness :
  renderContent (with_activeTab "Notes" initialState)
  = NotesView None None None /\
  renderContent (with_activeTab "Settings" initialState)
  = ChatView None None None.
Proof.
  split.
  - apply (proj1 (proj2 (proj2
             (renderContent_routes (with_activeTab "Notes" initialState))))).
    reflexivity.
  - apply (proj1 (proj2 (proj2 (proj2
             (renderContent_routes (with_activeTab "Settings" initialState))))));
      simpl; discriminate.
Defined.

Lemma renderContent_no_buttons (st : AppState) :
  onClicks (renderContent st) = [].
Proof.
  unfold renderContent.
  destruct (activeTab st =? "Chat"); [reflexivity|].
  destruct (activeTab st =? "Schedule"); [reflexivity|].
  destruct (activeTab st =? "Notes"); reflexivity.
Qed.

(** C7: while the readiness flag is false the component renders the
    loading screen, which shows the current loading message and none of
    header, main area, footer or tab button; once the flag is true it
    renders the header, the router's output for the active tab inside the
    main area, and the footer. *)
Theorem render_gate (E : Env) (st : AppState) :
  (isAuthReady st = false ->
   render E st = LoadingScreen st /\
   In (loadingMessage st) (texts (render E st)) /\
   ~ In "header" (tags (render E st)) /\
   ~ In "main" (tags (render E st)) /\
   ~ In "footer" (tags (render E st)) /\
   onClicks (render E st) = []) /\
  (isAuthReady st = true ->
   render E st =
   Elem "div" "min-h-screen bg-gray-100 flex flex-col font-sans"
     [Header st; MainArea st; Footer E] /\
   MainArea st =
   Elem "main" "flex-grow p-4 md:p-8 max-w-7xl w-full mx-auto"
     [Elem "div" "bg-white p-6 rounded-2xl shadow-xl h-[80vh]"
        [renderContent st]] /\
   onClicks (render E st) = ["Chat"; "Schedule"; "Notes"]).
Proof.
  unfold render. split; intros ->; simpl.
  - repeat split.
    + now left.
    + intros H; repeat (destruct H as [H|H]; [discriminate|]); exact H.
    + intros H; repeat (destruct H as [H|H]; [discriminate|]); exact H.
    + intros H; repeat (destruct H as [H|H]; [discriminate|]); exact H.
  - repeat split.
    rewrite renderContent_no_buttons. now destruct (userStatus st).
Qed.

Lemma render_gate_witness :
  In "Initializing application..."
     (texts (render (workingEnv demoConfig None) initialState)) /\
  onClicks (render (workingEnv demoConfig None)
                   (with_isAuthReady true initialState))
  = ["Chat"; "Schedule"; "Notes"].
Proof.
  split.
  - apply (render_gate (workingEnv demoConfig None) initialState). reflexivity.
  - apply (render_gate (workingEnv demoConfig None)
                       (with_isAuthReady true initialState)).
    reflexivity.
Defined.

(** ** The per-user path helper *)

(** C10: for every collection name, the helper returns null, without
    calling the SDK, when the database handle or the session identity is
    unset (null, or the empty string for the identity: the code tests
    [!db || !userId]); when both are set its result is that of the SDK's
    [collection] on the path artifacts/{appId}/users/{userId}/{name}. *)
Theorem getPrivateCollectionRef_guard (E : Env) (st : AppState) (name : string) :
  (truthy_obj (db st) = false \/ truthy_str (userId st) = false ->
   getPrivateCollectionRef E st name = Normal None) /\
  (forall d u,
      db st = Some d -> userId st = Some u -> u <> "" ->
      getPrivateCollectionRef E st name =
      match collection E d
              ("artifacts/" ++ appId E ++ "/users/" ++ u ++ "/" ++ name) with
      | inr ref => Normal (Some ref)
      | inl e => Throw e
      end) /\
  (forall d u ref,
      db st = Some d -> userId st = Some u -> u <> "" ->
      collection E d
        ("artifacts/" ++ appId E ++ "/users/" ++ u ++ "/" ++ name) = inr ref ->
      getPrivateCollectionRef E st name = Normal (Some ref)).
Proof.
  unfold getPrivateCollectionRef. repeat split.
  - intros [H|H].
    + destruct (db st); [discriminate|reflexivity].
    + destruct (db st); [|reflexivity].
      destruct (userId st); [|reflexivity]. now rewrite H.
  - intros d u -> -> Hu. simpl.
    apply String.eqb_neq in Hu. now rewrite Hu.
  - intros d u ref -> -> Hu Hc. cbv beta iota. unfold truthy_str.
    apply String.eqb_neq in Hu. rewrite Hu. cbv beta iota delta [negb].
    now rewrite Hc.
Qed.

Lemma getPrivateCollectionRef_guard_witness :
  getPrivateCollectionRef (workingEnv demoConfig None) initialState "notes"
  = Normal None /\
  getPrivateCollectionRef (workingEnv demoConfig None)
    (with_userId (Some "u1") (with_db (Some (FirestoreHandle 2)) initialState))
    "notes"
  = Normal (Some (CollectionHandle 4)).
Proof.
  split.
  - apply (getPrivateCollectionRef_guard (workingEnv demoConfig None)
             initialState "notes").
    left; reflexivity.
  - apply (getPrivateCollectionRef_guard (workingEnv demoConfig None)
             (with_userId (Some "u1")
                (with_db (Some (FirestoreHandle 2)) initialState))
             "notes") with (d := FirestoreHandle 2) (u := "u1");
      [reflexivity | reflexivity | discriminate | reflexivity].
Defined.

(** ** Readiness and the session identity *)

(** C5: the readiness flag is false in every state of a run in which the
    listener has not been called yet; every call of the listener, with a
    user or with null, sets it; and no event ever clears it again. *)
Theorem readiness_monotone (E : Env) :
  (forall evs s,
      run E initialSys evs = Some s ->
      (forall u, ~ In (AuthStateChanged u) evs) ->
      isAuthReady (ui s) = false) /\
  (forall s user s',
      step E s (AuthStateChanged user) = Some s' ->
      isAuthReady (ui s') = true) /\
  (forall s ev s',
      isAuthReady (ui s) = true -> step E s ev = Some s' ->
      isAuthReady (ui s') = true) /\
  (forall s evs s',
      isAuthReady (ui s) = true -> run E s evs = Some s' ->
      isAuthReady (ui s') = true).
Proof.
  repeat split.
  - intros evs s Hrun Hno.
    now rewrite (run_ready_unchanged E evs initialSys s Hrun Hno).
  - intros s user s' Hs. simpl in Hs.
    destruct (subscribed s); inversion Hs; subst. apply listener_sets_ready.
  - intros s ev s'. apply step_ready_stable.
  - intros s evs s' Hr Hrun. eapply run_ready_stable; eassumption.
Qed.

Lemma readiness_monotone_witness :
  isAuthReady (ui (demo_after [Mount; SignInSettled (inr tt)])) = false /\
  isAuthReady
    (ui (demo_after [Mount; AuthStateChanged None; Click "Notes"; Unmount]))
  = true.
Proof.
  split.
  - apply (proj1 (readiness_monotone demoEnv) [Mount; SignInSettled (inr tt)]).
    + vm_compute; reflexivity.
    + intros u [H|[H|[]]]; discriminate.
  - apply (proj2 (proj2 (proj2 (readiness_monotone demoEnv)))
             (demo_after [Mount; AuthStateChanged None])
             [Click "Notes"; Unmount]).
    + apply (proj1 (proj2 (readiness_monotone demoEnv))
               (demo_after [Mount]) None).
      vm_compute; reflexivity.
    + vm_compute; reflexivity.
Defined.

(** In every reachable state that is not ready yet, nobody is signed in. *)
Lemma not_ready_no_identity (E : Env) (s : Sys) :
  reachable E s -> isAuthReady (ui s) = false -> userId (ui s) = None.
Proof.
  revert s.
  apply (reachable_invariant E
           (fun s => isAuthReady (ui s) = false -> userId (ui s) = None)).
  - reflexivity.
  - intros s ev s' IH Hs Hr.
    assert (Hother : (forall u, ev <> AuthStateChanged u) -> userId (ui s') = None).
    { intros Hev. destruct (step_other_frame E s ev s' Hev Hs) as [H1 H2].
      rewrite H2; apply IH; congruence. }
    destruct ev as [ |r|user|name| ]; try (apply Hother; intros; discriminate).
    simpl in Hs. destruct (subscribed s); inversion Hs; subst.
    rewrite listener_sets_ready in Hr. discriminate.
Qed.

(** C9: the session identity is null in every reachable state in which
    the readiness flag is still false; a listener call reporting a
    signed-in user sets it to that user's identifier; a listener call
    reporting the signed-out state sets it back to null. *)
Theorem session_identity_lifecycle (E : Env) :
  (forall s, reachable E s -> isAuthReady (ui s) = false ->
             userId (ui s) = None) /\
  (forall s u s',
      step E s (AuthStateChanged (Some u)) = Some s' ->
      userId (ui s') = Some (uid u)) /\
  (forall s s',
      step E s (AuthStateChanged None) = Some s' ->
      userId (ui s') = None).
Proof.
  repeat split.
  - apply not_ready_no_identity.
  - intros s u s' Hs. unfold step in Hs.
    destruct (subscribed s); inversion Hs; subst.
    exact (listener_sets_userId (Some u) s).
  - intros s s' Hs. unfold step in Hs.
    destruct (subscribed s); inversion Hs; subst.
    exact (listener_sets_userId None s).
Qed.

Lemma session_identity_lifecycle_witness :
  userId (ui (demo_after [Mount])) = None /\
  userId (ui (demo_after [Mount; AuthStateChanged (Some alice)]))
  = Some "u-alice-0123456789" /\
  userId (ui (demo_after [Mount; AuthStateChanged (Some alice);
                          AuthStateChanged None]))
  = None.
Proof.
  split; [|split].
  - apply (proj1 (session_identity_lifecycle demoEnv)).
    + exists [Mount]; vm_compute; reflexivity.
    + vm_compute; reflexivity.
  - apply (proj1 (proj2 (session_identity_lifecycle demoEnv))
             (demo_after [Mount]) alice).
    vm_compute; reflexivity.
  - apply (proj2 (proj2 (session_identity_lifecycle demoEnv))
             (demo_after [Mount; AuthStateChanged (Some alice)])).
    vm_compute; reflexivity.
Defined.

(** ** The bootstrap effect *)

(** No exception escapes the effect in any run. *)
Lemma reachable_not_crashed (E : Env) (s : Sys) :
  reachable E s -> crashed s = None.
Proof.
  revert s. apply (reachable_invariant E (fun s => crashed s = None)).
  - reflexivity.
  - intros s ev s' IH Hs. destruct ev; simpl in Hs.
    + destruct (is_before_effect (phase s)); [|discriminate].
      destruct (bootstrap_returns E s) as [c Hc].
      pose proof (bootstrap_frame E s) as (_ & _ & _ & _ & Hcr & _).
      destruct (bootstrap E s) as [[c'|e] s1]; simpl in *; [|discriminate].
      inversion Hs; subst; simpl. congruence.
    + destruct (awaiting (task s)); inversion Hs; subst.
      pose proof (resume_frame r s) as (_ & _ & Hcr & _). congruence.
    + destruct (subscribed s); inversion Hs; subst.
      unfold_js. now destruct user.
    + destruct (_ && _); inversion Hs; subst. exact IH.
    + destruct (is_mounted (phase s)); inversion Hs; subst.
      destruct (hasCleanup s); simpl; exact IH.
Qed.

(** Inside the effect: it always completes normally; when a call of client
    initialization throws, the effect returns without a cleanup, the
    loading message becomes "Failed to initialize Firebase: " followed by
    the exception's message, the exception is logged, and readiness,
    session identity, user status and active tab are as before; no
    reachable state of the shell is a crashed one, and after such a mount
    the shell shows the loading screen with that message. *)
Theorem bootstrap_catches_init_errors (E : Env) :
  (forall s, exists c s', bootstrap E s = (Normal c, s')) /\
  (forall s e,
      config_missing E = false -> init_throws E e ->
      exists s',
        bootstrap E s = (Normal false, s') /\
        loadingMessage (ui s') = "Failed to initialize Firebase: " ++ message e /\
        isAuthReady (ui s') = isAuthReady (ui s) /\
        userId (ui s') = userId (ui s) /\
        userStatus (ui s') = userStatus (ui s) /\
        activeTab (ui s') = activeTab (ui s) /\
        In (ConsoleError "Firebase Initialization Error:" e) (trace s') /\
        signins (trace s') = signins (trace s) /\
        crashed s' = crashed s) /\
  (forall s, reachable E s -> crashed s = None) /\
  (forall e s,
      config_missing E = false -> init_throws E e ->
      step E initialSys Mount = Some s ->
      render E (ui s) = LoadingScreen (ui s) /\
      loadingMessage (ui s) = "Failed to initialize Firebase: " ++ message e).
Proof.
  split; [|split; [|split]].
  - intros s. destruct (bootstrap_returns E s) as [c Hc].
    destruct (bootstrap E s) as [r s']; simpl in Hc; subst. eauto.
  - intros s e Hc Ht.
    destruct (bootstrap_failure E s e Hc Ht)
      as (s' & Hb & Hm & Hu & Hr & Ha & Hst & (calls & Htr & Hsg) & _ & _ & _ & _ & Hcr).
    exists s'. repeat split; try assumption.
    + rewrite Htr. apply in_or_app; right. apply in_or_app; right. now left.
    + rewrite Htr. unfold signins in *. rewrite !filter_app, Hsg. simpl.
      now rewrite app_nil_r.
  - apply reachable_not_crashed.
  - intros e s Hc Ht Hs. unfold step in Hs. simpl in Hs.
    destruct (bootstrap_failure E initialSys e Hc Ht)
      as (s' & Hb & Hm & _ & Hr & _).
    rewrite Hb in Hs. inversion Hs; subst; simpl. split.
    + unfold render. now rewrite Hr.
    + exact Hm.
Qed.

Lemma bootstrap_catches_init_errors_witness :
  exists s,
    bootstrap brokenEnv initialSys = (Normal false, s) /\
    loadingMessage (ui s) = "Failed to initialize Firebase: invalid-api-key" /\
    isAuthReady (ui s) = false.
Proof.
  destruct (proj1 (proj2 (bootstrap_catches_init_errors brokenEnv))
              initialSys {| message := "invalid-api-key" |} eq_refl
              (throws_initializeApp brokenEnv _ eq_refl))
    as (s & Hb & Hm & Hr & _).
  exists s. split; [exact Hb|]. split; [exact Hm|exact Hr].
Defined.

Lemma blocked_step (E : Env) (s : Sys) (ev : Event) (s' : Sys) :
  config_missing E = true ->
  blocked s -> step E s ev = Some s' ->
  blocked s' /\ phase s' <> BeforeEffect.
Proof.
  intros Hc (Hr & Ht & Hsub & Hcl & Htk & Hmsg) Hs.
  destruct ev; simpl in Hs.
  - destruct (phase s) eqn:Hp; simpl in Hs; try discriminate.
    rewrite bootstrap_blocked in Hs by assumption.
    inversion Hs; subst; simpl.
    unfold blocked; simpl. repeat split; auto; discriminate.
  - rewrite Htk in Hs. discriminate.
  - rewrite Hsub in Hs. discriminate.
  - destruct (phase s) eqn:Hp; simpl in Hs; try discriminate.
    unfold render in Hs. rewrite Hr in Hs. simpl in Hs. discriminate.
  - destruct (phase s) eqn:Hp; simpl in Hs; try discriminate.
    rewrite Hcl in Hs. inversion Hs; subst; simpl.
    unfold blocked; simpl. repeat split; auto; try discriminate.
    intros _. apply Hmsg. discriminate.
Qed.

Lemma blocked_run (E : Env) (evs : list Event) (s s' : Sys) :
  config_missing E = true ->
  blocked s -> run E s evs = Some s' ->
  blocked s' /\ (evs <> [] -> phase s' <> BeforeEffect).
Proof.
  intros Hc. revert s.
  induction evs as [|ev evs IH]; intros s Hb Hrun; simpl in Hrun.
  - inversion Hrun; subst. split; [assumption|congruence].
  - destruct (step E s ev) as [s1|] eqn:Hs; [|discriminate].
    destruct (blocked_step E s ev s1 Hc Hb Hs) as [Hb1 Hp1].
    destruct (IH s1 Hb1 Hrun) as [Hb' Hp'].
    split; [assumption|]. intros _.
    destruct evs as [|ev' evs'].
    + simpl in Hrun. inversion Hrun; subst. exact Hp1.
    + apply Hp'. discriminate.
Qed.

(** C2: when the configuration is empty, in every state the run reaches
    the readiness flag is false, no SDK call has been made (no client
    constructed, no sign-in attempted), no listener is registered, and
    from the effect on the loading message is the blocked status message,
    shown on the loading screen. *)
Theorem empty_config_blocks (E : Env) :
  config_missing E = true ->
  forall evs s,
    run E initialSys evs = Some s ->
    isAuthReady (ui s) = false /\
    trace s = [] /\
    subscribed s = false /\
    task s = NotStarted /\
    (evs <> [] ->
     loadingMessage (ui s) =
     "Firebase configuration missing. Cannot proceed with data storage." /\
     render E (ui s) = LoadingScreen (ui s)).
Proof.
  intros Hc evs s Hrun.
  assert (Hb0 : blocked initialSys).
  { unfold blocked; simpl. repeat split. intros H; now elim H. }
  destruct (blocked_run E evs initialSys s Hc Hb0 Hrun)
    as [(Hr & Ht & Hsub & _ & Htk & Hmsg) Hp].
  repeat split; try assumption.
  - apply Hmsg, Hp, H.
  - unfold render. now rewrite Hr.
Qed.

Lemma empty_config_blocks_witness :
  exists s,
    run (workingEnv (JObj []) (Some "token")) initialSys [Mount; Unmount] = Some s /\
    isAuthReady (ui s) = false /\
    trace s = [] /\
    loadingMessage (ui s) =
    "Firebase configuration missing. Cannot proceed with data storage.".
Proof.
  eexists; split; [reflexivity|].
  destruct (empty_config_blocks (workingEnv (JObj []) (Some "token")) eq_refl
              [Mount; Unmount] _ eq_refl) as (Hr & Ht & _ & _ & Hm).
  split; [exact Hr|]. split; [exact Ht|].
  apply Hm. discriminate.
Defined.

(** ** Order of registration and sign-in *)

Lemma listener_first_no_signin (E : Env) (t : list Effect) :
  signins t = [] -> listener_first E t.
Proof.
  intros Hn pre eff post -> Hsg.
  unfold signins in Hn. rewrite filter_app in Hn. simpl in Hn.
  rewrite Hsg in Hn. now destruct (filter is_signin pre).
Qed.

Lemma listener_first_snoc (E : Env) (t : list Effect) (e : Effect) :
  listener_first E t ->
  (is_signin e = true ->
   exists a, In (CallOnAuthStateChanged a) t /\ onAuthStateChanged E a = inr tt) ->
  listener_first E (t ++ [e]).
Proof.
  intros Ht He pre eff post Heq Hsg.
  destruct (exists_last (l := eff :: post) ltac:(discriminate)) as (body & x & Hl).
  destruct post as [|y post].
  - apply app_inj_tail in Heq as [-> ->]. now apply He.
  - rewrite Hl, app_assoc in Heq. apply app_inj_tail in Heq as [-> _].
    destruct body as [|b body]; [destruct post; discriminate|].
    simpl in Hl. inversion Hl; subst.
    now apply (Ht pre b body).
Qed.

Lemma ordered_step (E : Env) (s : Sys) (ev : Event) (s' : Sys) :
  ordered E s -> step E s ev = Some s' -> ordered E s'.
Proof.
  intros (H0 & Hlf & Haw) Hs. destruct ev; simpl in Hs.
  - destruct (phase s) eqn:Hp; simpl in Hs; try discriminate.
    destruct (H0 eq_refl) as [Htr Htk].
    destruct (config_missing E) eqn:Hc.
    + rewrite bootstrap_blocked in Hs by assumption.
      inversion Hs; subst; unfold ordered; simpl.
      rewrite Htr, Htk. repeat split; try discriminate.
      now apply listener_first_no_signin.
    + destruct (init_cases E) as [[e Ht]|(app & d & a & Hok)].
      * destruct (bootstrap_failure E s e Hc Ht)
          as (s1 & Hb & _ & _ & _ & _ & _ & (calls & Hcalls & Hsg) & _ & _ & Htk1 & _).
        rewrite Hb in Hs. inversion Hs; subst; unfold ordered; simpl.
        rewrite Htk1, Htk, Hcalls, Htr. repeat split; try discriminate.
        apply listener_first_no_signin. simpl.
        unfold signins in *. rewrite filter_app, Hsg. reflexivity.
      * rewrite (bootstrap_success E s app d a Hc Hok) in Hs.
        inversion Hs; subst; unfold ordered; simpl. rewrite Htr; simpl.
        destruct Hok as (_ & _ & _ & Hreg).
        repeat split; try discriminate.
        -- intros pre eff post Heq Hsg.
           exists a. split; [|exact Hreg].
           destruct pre as [|p1 [|p2 [|p3 [|p4 [|p5 pre]]]]];
             inversion Heq; subst; try discriminate; simpl; auto.
        -- inversion H; subst. simpl; auto.
        -- inversion H; subst. exact Hreg.
  - destruct (awaiting (task s)) eqn:Hawait; inversion Hs; subst; clear Hs.
    assert (Hp : phase s <> BeforeEffect).
    { intros Hp. destruct (H0 Hp) as [_ Htk]. rewrite Htk in Hawait. discriminate. }
    unfold attemptSignIn_resume.
    destruct (task s) as [ |a|a| | ] eqn:Htk; try discriminate;
      destruct r as [err|[]]; unfold_js; unfold ordered; simpl;
      (split; [intros Hp'; contradiction|]); (split; [|intros a' Ha'; discriminate]);
      try exact Hlf.
    destruct (Haw a eq_refl) as [Hin Hreg].
    apply listener_first_snoc.
    + apply listener_first_snoc; [exact Hlf|discriminate].
    + intros _. exists a. split; [|exact Hreg].
      apply in_or_app; now left.
  - destruct (subscribed s); inversion Hs; subst; clear Hs.
    unfold_js; unfold ordered; destruct user; simpl; repeat split;
      try (apply H0; assumption); try exact Hlf; try (apply Haw; assumption).
  - destruct (_ && _); inversion Hs; subst; clear Hs.
    unfold_js; unfold ordered; simpl; repeat split;
      try (apply H0; assumption); try exact Hlf; try (apply Haw; assumption).
  - destruct (phase s) eqn:Hp; simpl in Hs; try discriminate.
    inversion Hs; subst; clear Hs.
    destruct (hasCleanup s); unfold_js; unfold ordered; simpl;
      repeat split; try discriminate; try exact Hlf;
      try (apply Haw; assumption).
    + apply listener_first_snoc; [exact Hlf|discriminate].
    + apply in_or_app; left. now apply Haw.
Qed.

Lemma reachable_ordered (E : Env) (s : Sys) : reachable E s -> ordered E s.
Proof.
  revert s. apply (reachable_invariant E (ordered E)).
  - unfold ordered; simpl. repeat split; try discriminate.
    now apply listener_first_no_signin.
  - apply ordered_step.
Qed.

(** C4: in every run, whatever the configuration, each sign-in call the
    program makes is preceded in the trace by a call of
    [onAuthStateChanged] that returned normally: the listener is
    registered before any sign-in attempt starts. *)
Theorem listener_registered_before_sign_in (E : Env) :
  forall evs s,
    run E initialSys evs = Some s ->
    forall pre eff post,
      trace s = (pre ++ eff :: post)%list -> is_signin eff = true ->
      exists a, In (CallOnAuthStateChanged a) pre /\
                onAuthStateChanged E a = inr tt.
Proof.
  intros evs s Hrun.
  assert (Hr : reachable E s) by (exists evs; exact Hrun).
  destruct (reachable_ordered E s Hr) as (_ & Hlf & _). exact Hlf.
Qed.

Lemma listener_registered_before_sign_in_witness :
  exists a,
    In (CallOnAuthStateChanged a)
       [CallInitializeApp demoConfig; CallGetFirestore (AppHandle 1);
        CallGetAuth (AppHandle 1); CallOnAuthStateChanged (AuthHandle 3);
        CallSignInWithCustomToken (AuthHandle 3) "expired";
        ConsoleError "Authentication error:" networkError] /\
    onAuthStateChanged (workingEnv demoConfig (Some "expired")) a = inr tt.
Proof.
  apply (listener_registered_before_sign_in
           (workingEnv demoConfig (Some "expired"))
           [Mount; SignInSettled (inl networkError)] _ eq_refl
           _ (CallSignInAnonymously (AuthHandle 3)) []);
    reflexivity.
Defined.

(** ** The sign-in sequence *)

(** Once [attemptSignIn] is past its first await, no event adds a call
    to the trace, except the unsubscribe of the tear-down. *)
Lemma settled_step (E : Env) (f : Effect -> bool) (s : Sys) (ev : Event) (s' : Sys) :
  f CallUnsubscribe = false ->
  phase s <> BeforeEffect -> past_first_await (task s) = true ->
  step E s ev = Some s' ->
  phase s' <> BeforeEffect /\ past_first_await (task s') = true /\
  filter f (trace s') = filter f (trace s).
Proof.
  intros Hf Hp Hd Hs. destruct ev; simpl in Hs.
  - destruct (phase s); simpl in Hs; try discriminate. now elim Hp.
  - destruct (awaiting (task s)) eqn:Haw; inversion Hs; subst; clear Hs.
    unfold attemptSignIn_resume.
    destruct (task s) eqn:Htk; try discriminate;
      destruct r as [err|[]]; simpl; auto.
  - destruct (subscribed s); inversion Hs; subst; clear Hs.
    unfold_js; destruct user; simpl; auto.
  - destruct (_ && _); inversion Hs; subst; clear Hs. unfold_js; simpl; auto.
  - destruct (phase s) eqn:Hph; simpl in Hs; try discriminate.
    inversion Hs; subst; clear Hs.
    destruct (hasCleanup s); unfold_js; simpl; repeat split;
      try discriminate; try assumption.
    rewrite filter_app. simpl. rewrite Hf. apply app_nil_r.
Qed.

Lemma settled_run (E : Env) (f : Effect -> bool) (evs : list Event) (s s' : Sys) :
  f CallUnsubscribe = false ->
  phase s <> BeforeEffect -> past_first_await (task s) = true ->
  run E s evs = Some s' ->
  filter f (trace s') = filter f (trace s).
Proof.
  intros Hf. revert s.
  induction evs as [|ev evs IH]; intros s Hp Hd Hrun; simpl in Hrun.
  - now inversion Hrun.
  - destruct (step E s ev) as [s1|] eqn:Hs; [|discriminate].
    destruct (settled_step E f s ev s1 Hf Hp Hd Hs) as (Hp1 & Hd1 & Heq).
    rewrite <- Heq. now apply IH.
Qed.

(** While [attemptSignIn] waits at its first await, the same holds. *)
Lemma waiting_step (E : Env) (f : Effect -> bool) (a : Auth)
      (s : Sys) (ev : Event) (s' : Sys) :
  f CallUnsubscribe = false ->
  phase s <> BeforeEffect -> task s = AwaitingFirst a ->
  (forall r, ev <> SignInSettled r) ->
  step E s ev = Some s' ->
  phase s' <> BeforeEffect /\ task s' = AwaitingFirst a /\
  filter f (trace s') = filter f (trace s).
Proof.
  intros Hf Hp Ht Hev Hs. destruct ev; simpl in Hs.
  - destruct (phase s); simpl in Hs; try discriminate. now elim Hp.
  - now elim (Hev r).
  - destruct (subscribed s); inversion Hs; subst; clear Hs.
    unfold_js; destruct user; simpl; auto.
  - destruct (_ && _); inversion Hs; subst; clear Hs. unfold_js; simpl; auto.
  - destruct (phase s) eqn:Hph; simpl in Hs; try discriminate.
    inversion Hs; subst; clear Hs.
    destruct (hasCleanup s); unfold_js; simpl; repeat split;
      try discriminate; try assumption.
    rewrite filter_app. simpl. rewrite Hf. apply app_nil_r.
Qed.

Lemma waiting_run (E : Env) (f : Effect -> bool) (a : Auth)
      (evs : list Event) (s s' : Sys) :
  f CallUnsubscribe = false ->
  phase s <> BeforeEffect -> task s = AwaitingFirst a ->
  (forall r, ~ In (SignInSettled r) evs) ->
  run E s evs = Some s' ->
  phase s' <> BeforeEffect /\ task s' = AwaitingFirst a /\
  filter f (trace s') = filter f (trace s).
Proof.
  intros Hf. revert s.
  induction evs as [|ev evs IH]; intros s Hp Ht Hno Hrun; simpl in Hrun.
  - inversion Hrun; subst. auto.
  - destruct (step E s ev) as [s1|] eqn:Hs; [|discriminate].
    destruct (waiting_step E f a s ev s1 Hf Hp Ht) as (Hp1 & Ht1 & Heq);
      [intros r ->; apply (Hno r); now left | exact Hs |].
    destruct (IH s1 Hp1 Ht1) as (Hp' & Ht' & Heq');
      [intros r Hin; apply (Hno r); now right | exact Hrun |].
    repeat split; try assumption. congruence.
Qed.

(** The listener stays registered until the component is torn down. *)
Lemma subscribed_run (E : Env) (evs : list Event) (s s' : Sys) :
  phase s <> BeforeEffect -> subscribed s = true ->
  ~ In Unmount evs -> run E s evs = Some s' ->
  subscribed s' = true.
Proof.
  revert s. induction evs as [|ev evs IH]; intros s Hp Hsub Hno Hrun; simpl in Hrun.
  - now inversion Hrun; subst.
  - destruct (step E s ev) as [s1|] eqn:Hs; [|discriminate].
    assert (H1 : phase s1 <> BeforeEffect /\ subscribed s1 = true).
    { destruct ev; simpl in Hs.
      - destruct (phase s); simpl in Hs; try discriminate. now elim Hp.
      - destruct (awaiting (task s)); inversion Hs; subst.
        pose proof (resume_frame r s) as (_ & Hsb & _ & Hph). split; congruence.
      - rewrite Hsub in Hs. inversion Hs; subst.
        unfold_js; destruct user; simpl; auto.
      - destruct (_ && _); inversion Hs; subst. unfold_js; simpl; auto.
      - elim Hno. now left. }
    destruct H1 as [Hp1 Hsub1]. apply (IH s1 Hp1 Hsub1); [|exact Hrun].
    intros Hin. apply Hno. now right.
Qed.

(** The calls of a run whose effect went through and whose first sign-in
    call was answered by [r], whatever else happened in between and after. *)
Lemma settled_trace (E : Env) (f : Effect -> bool) (app : FirebaseApp)
      (d : Firestore) (a : Auth) (r : Error + unit)
      (evs1 evs2 : list Event) (s : Sys) :
  f CallUnsubscribe = false ->
  config_missing E = false -> init_succeeds E app d a ->
  (forall r', ~ In (SignInSettled r') evs1) ->
  run E initialSys (Mount :: evs1 ++ SignInSettled r :: evs2) = Some s ->
  filter f (trace s) =
  filter f ([CallInitializeApp (firebaseConfig E); CallGetFirestore app;
             CallGetAuth app; CallOnAuthStateChanged a; first_signin E a]
            ++ match r with
               | inl err => [ConsoleError "Authentication error:" err;
                             CallSignInAnonymously a]
               | inr _ => []
               end) /\
  (~ In Unmount (evs1 ++ evs2) -> subscribed s = true).
Proof.
  intros Hf Hc Hok Hno Hrun.
  change (Mount :: evs1 ++ SignInSettled r :: evs2)
    with ([Mount] ++ evs1 ++ [SignInSettled r] ++ evs2)%list in Hrun.
  rewrite run_app in Hrun.
  destruct (run E initialSys [Mount]) as [s1|] eqn:H1; [|discriminate].
  simpl in H1. rewrite (bootstrap_success E initialSys app d a Hc Hok) in H1.
  rewrite run_app in Hrun.
  destruct (run E s1 evs1) as [s2|] eqn:H2; [|discriminate].
  rewrite run_app in Hrun.
  destruct (run E s2 [SignInSettled r]) as [s3|] eqn:H3; [|discriminate].
  assert (Hs1 : phase s1 <> BeforeEffect /\ task s1 = AwaitingFirst a /\
                subscribed s1 = true /\
                trace s1 = [CallInitializeApp (firebaseConfig E); CallGetFirestore app;
                            CallGetAuth app; CallOnAuthStateChanged a;
                            first_signin E a]).
  { inversion H1; subst; simpl. repeat split. discriminate. }
  destruct Hs1 as (Hp1 & Ht1 & Hsub1 & Htr1).
  destruct (waiting_run E f a evs1 s1 s2 Hf Hp1 Ht1 Hno H2) as (Hp2 & Ht2 & Hf2).
  assert (Hs3 : phase s3 <> BeforeEffect /\ past_first_await (task s3) = true /\
                subscribed s3 = subscribed s2 /\
                trace s3 = (trace s2 ++
                            match r with
                            | inl err => [ConsoleError "Authentication error:" err;
                                          CallSignInAnonymously a]
                            | inr _ => []
                            end)%list).
  { simpl in H3. rewrite Ht2 in H3. simpl in H3. inversion H3; subst.
    unfold attemptSignIn_resume. rewrite Ht2.
    destruct r as [err|[]]; unfold_js; simpl.
    - repeat split; try assumption. now rewrite <- app_assoc.
    - repeat split; try assumption. now rewrite app_nil_r. }
  destruct Hs3 as (Hp3 & Hd3 & Hsub3 & Htr3).
  split.
  - rewrite (settled_run E f evs2 s3 s Hf Hp3 Hd3 Hrun).
    rewrite Htr3, !filter_app, Hf2, Htr1. reflexivity.
  - intros Hun.
    apply (subscribed_run E evs2 s3 s Hp3); [| |exact Hrun].
    + rewrite Hsub3.
      apply (subscribed_run E evs1 s1 s2 Hp1 Hsub1); [|exact H2].
      intros Hin. apply Hun. apply in_or_app. now left.
    + intros Hin. apply Hun. apply in_or_app. now right.
Qed.

(** Without a token the first call is the anonymous one; if it is
    fulfilled it stays the only one in every continuation of the run, and
    if it is rejected the catch block makes a second one. *)
Lemma anonymous_attempts_without_token (E : Env) (app : FirebaseApp)
      (d : Firestore) (a : Auth) :
  config_missing E = false -> init_succeeds E app d a ->
  truthy_str (initialAuthToken E) = false ->
  first_signin E a = CallSignInAnonymously a /\
  (forall evs1 evs2 s,
      (forall r, ~ In (SignInSettled r) evs1) ->
      run E initialSys (Mount :: evs1 ++ SignInSettled (inr tt) :: evs2) = Some s ->
      anonymous_attempts (trace s) = 1) /\
  (forall err evs1 evs2 s,
      (forall r, ~ In (SignInSettled r) evs1) ->
      run E initialSys (Mount :: evs1 ++ SignInSettled (inl err) :: evs2) = Some s ->
      anonymous_attempts (trace s) = 2).
Proof.
  intros Hc Hok Htok.
  assert (Hfirst : first_signin E a = CallSignInAnonymously a).
  { unfold first_signin. destruct (initialAuthToken E) as [t|]; [|reflexivity].
    simpl in Htok. simpl. now rewrite Htok. }
  split; [exact Hfirst|]. split.
  - intros evs1 evs2 s Hno Hrun. unfold anonymous_attempts.
    destruct (settled_trace E is_anonymous_signin app d a (inr tt) evs1 evs2 s
                eq_refl Hc Hok Hno Hrun) as [-> _].
    rewrite Hfirst. reflexivity.
  - intros err evs1 evs2 s Hno Hrun. unfold anonymous_attempts.
    destruct (settled_trace E is_anonymous_signin app d a (inl err) evs1 evs2 s
                eq_refl Hc Hok Hno Hrun) as [-> _].
    rewrite Hfirst. reflexivity.
Qed.

(** C1: with a non-empty configuration and no token, once the provider
    rejects the first anonymous sign-in the catch block calls
    [signInAnonymously] again: the trace of that run holds two anonymous
    attempts, not one. *)
Theorem anonymous_sign_in_retried_on_rejection :
  exists s,
    run demoEnv initialSys [Mount; SignInSettled (inl networkError)] = Some s /\
    trace s =
    [CallInitializeApp demoConfig; CallGetFirestore (AppHandle 1);
     CallGetAuth (AppHandle 1); CallOnAuthStateChanged (AuthHandle 3);
     CallSignInAnonymously (AuthHandle 3);
     ConsoleError "Authentication error:" networkError;
     CallSignInAnonymously (AuthHandle 3)] /\
    anonymous_attempts (trace s) = 2.
Proof.
  exists (demo_after [Mount; SignInSettled (inl networkError)]).
  split; [|split]; vm_compute; reflexivity.
Qed.

(** C3: with a non-empty configuration, a working client and a token that
    the provider rejects, in every run the program calls token sign-in
    first, logs the rejection, and calls anonymous sign-in once, and these
    are all its sign-in calls and console errors; settling a sign-in never
    changes the component state (the error is not shown); the run ends
    with the readiness flag true if the listener was called in it, and
    until tear-down the listener stays registered, each call of it giving
    a ready state. *)
Theorem token_rejected_falls_back (E : Env) (app : FirebaseApp)
        (d : Firestore) (a : Auth) (token : string) (err : Error) :
  config_missing E = false -> init_succeeds E app d a ->
  initialAuthToken E = Some token -> token <> "" ->
  forall evs1 evs2 s,
    (forall r, ~ In (SignInSettled r) evs1) ->
    run E initialSys (Mount :: evs1 ++ SignInSettled (inl err) :: evs2) = Some s ->
    auth_log (trace s) =
    [CallSignInWithCustomToken a token;
     ConsoleError "Authentication error:" err;
     CallSignInAnonymously a] /\
    signins (trace s) =
    [CallSignInWithCustomToken a token; CallSignInAnonymously a] /\
    (forall s1 r s2, step E s1 (SignInSettled r) = Some s2 -> ui s2 = ui s1) /\
    ((exists user, In (AuthStateChanged user) (evs1 ++ evs2)) ->
     isAuthReady (ui s) = true) /\
    (~ In Unmount (evs1 ++ evs2) ->
     subscribed s = true /\
     forall user, exists s',
         step E s (AuthStateChanged user) = Some s' /\
         isAuthReady (ui s') = true).
Proof.
  intros Hc Hok Htok Hne evs1 evs2 s Hno Hrun.
  assert (Hfirst : first_signin E a = CallSignInWithCustomToken a token).
  { unfold first_signin. rewrite Htok. simpl.
    apply String.eqb_neq in Hne. now rewrite Hne. }
  split; [|split; [|split; [|split]]].
  - unfold auth_log.
    destruct (settled_trace E is_auth_effect app d a (inl err) evs1 evs2 s
                eq_refl Hc Hok Hno Hrun) as [-> _].
    rewrite Hfirst. reflexivity.
  - unfold signins.
    destruct (settled_trace E is_signin app d a (inl err) evs1 evs2 s
                eq_refl Hc Hok Hno Hrun) as [-> _].
    rewrite Hfirst. reflexivity.
  - intros s1 r s2 Hs. simpl in Hs.
    destruct (awaiting (task s1)); inversion Hs; subst.
    apply resume_frame.
  - intros [user Hin].
    apply (run_ready_after_listener E _ initialSys s Hrun).
    exists user. right. apply in_app_or in Hin as [Hin|Hin].
    + apply in_or_app. now left.
    + apply in_or_app. right. now right.
  - intros Hun.
    destruct (settled_trace E is_signin app d a (inl err) evs1 evs2 s
                eq_refl Hc Hok Hno Hrun) as [_ Hsub].
    specialize (Hsub Hun). split; [exact Hsub|].
    intros user. exists (snd (authListener user s)). split.
    + simpl. now rewrite Hsub.
    + apply listener_sets_ready.
Qed.

Lemma token_rejected_falls_back_witness :
  auth_log (trace (demo_token_after
                     [Mount; AuthStateChanged None;
                      SignInSettled (inl networkError); Click "Notes"])) =
  [CallSignInWithCustomToken (AuthHandle 3) "expired";
   ConsoleError "Authentication error:" networkError;
   CallSignInAnonymously (AuthHandle 3)].
Proof.
  apply (token_rejected_falls_back
           (workingEnv demoConfig (Some "expired"))
           (AppHandle 1) (FirestoreHandle 2) (AuthHandle 3)
           "expired" networkError eq_refl
           (conj eq_refl (conj eq_refl (conj eq_refl eq_refl)))
           eq_refl ltac:(discriminate)
           [AuthStateChanged None] [Click "Notes"]).
  - intros r [H|[]]; discriminate.
  - vm_compute; reflexivity.
Defined.

(** ** The tab bar *)

Lemma onClicks_render (E : Env) (st : AppState) :
  onClicks (render E st) = if isAuthReady st then tab_labels else [].
Proof.
  unfold render. destruct (isAuthReady st); simpl; [|reflexivity].
  rewrite renderContent_no_buttons. now destruct (userStatus st).
Qed.

Lemma click_enabled (E : Env) (s : Sys) (name : string) :
  is_mounted (phase s)
  && existsb (String.eqb name) (onClicks (render E (ui s))) = true <->
  phase s = Mounted /\ isAuthReady (ui s) = true /\ In name tab_labels.
Proof.
  rewrite onClicks_render, andb_true_iff, existsb_exists. split.
  - intros [Hm (x & Hin & Hx)]. apply String.eqb_eq in Hx. subst x.
    destruct (phase s); try discriminate.
    destruct (isAuthReady (ui s)); [|destruct Hin]. auto.
  - intros (Hp & Hr & Hin). rewrite Hp, Hr. split; [reflexivity|].
    exists name. split; [exact Hin|apply String.eqb_refl].
Qed.

Lemma reachable_tab_label (E : Env) (s : Sys) :
  reachable E s -> In (activeTab (ui s)) tab_labels.
Proof.
  revert s. apply (reachable_invariant E (fun s => In (activeTab (ui s)) tab_labels)).
  - simpl; auto.
  - intros s ev s' IH Hs. destruct ev.
    + simpl in Hs. destruct (is_before_effect (phase s)); [|discriminate].
      pose proof (bootstrap_frame E s) as (_ & _ & Ha & _).
      destruct (bootstrap E s) as [[c|e] s1]; inversion Hs; subst; simpl in *;
        now rewrite Ha.
    + simpl in Hs. destruct (awaiting (task s)); inversion Hs; subst.
      pose proof (resume_frame r s) as (Hu & _). now rewrite Hu.
    + simpl in Hs. destruct (subscribed s); inversion Hs; subst.
      unfold_js. now destruct user.
    + unfold step in Hs.
      destruct (is_mounted (phase s) && _) eqn:Hen; inversion Hs; subst.
      apply click_enabled in Hen. simpl. tauto.
    + simpl in Hs. destruct (is_mounted (phase s)); inversion Hs; subst.
      now destruct (hasCleanup s).
Qed.

(** X1: in every reachable state the active tab is one of 'Chat',
    'Schedule' and 'Notes', so the default branch of the router is never
    the one taken: the Chat placeholder is on screen only when Chat is
    selected. *)
Theorem activeTab_always_a_label (E : Env) (s : Sys) :
  reachable E s ->
  In (activeTab (ui s)) ["Chat"; "Schedule"; "Notes"] /\
  (renderContent (ui s) = ChatView (db (ui s)) (userId (ui s)) (auth (ui s)) ->
   activeTab (ui s) = "Chat").
Proof.
  intros Hr. pose proof (reachable_tab_label E s Hr) as Hin.
  split; [exact Hin|].
  unfold renderContent.
  destruct Hin as [H|[H|[H|[]]]]; rewrite <- H; simpl;
    [reflexivity|discriminate|discriminate].
Qed.

Lemma activeTab_always_a_label_witness :
  In (activeTab (ui (demo_after [Mount; AuthStateChanged None; Click "Notes"])))
     ["Chat"; "Schedule"; "Notes"].
Proof.
  apply (activeTab_always_a_label demoEnv).
  exists [Mount; AuthStateChanged None; Click "Notes"]. vm_compute; reflexivity.
Defined.

(** X2: a tab button can be clicked exactly when the component is mounted
    and ready and the name is one of the three labels; the click sets the
    active tab to that name and changes nothing else, neither in the
    component state nor outside it. *)
Theorem click_selects_tab (E : Env) (s : Sys) (name : string) :
  (forall s', step E s (Click name) = Some s' ->
     phase s = Mounted /\ isAuthReady (ui s) = true /\
     In name ["Chat"; "Schedule"; "Notes"] /\
     ui s' = with_activeTab name (ui s) /\
     trace s' = trace s /\ subscribed s' = subscribed s /\
     task s' = task s /\ phase s' = phase s) /\
  (phase s = Mounted -> isAuthReady (ui s) = true ->
   In name ["Chat"; "Schedule"; "Notes"] ->
   exists s', step E s (Click name) = Some s' /\ activeTab (ui s') = name).
Proof.
  split.
  - intros s' Hs. unfold step in Hs.
    destruct (is_mounted (phase s) && _) eqn:Hen; inversion Hs; subst.
    apply click_enabled in Hen. destruct Hen as (Hp & Hr & Hin).
    repeat split; assumption.
  - intros Hp Hr Hin. unfold step.
    destruct (is_mounted (phase s) && _) eqn:Hen.
    + eexists. split; reflexivity.
    + assert (Hen' : is_mounted (phase s)
                     && existsb (String.eqb name) (onClicks (render E (ui s))) = true)
        by (apply click_enabled; auto).
      congruence.
Qed.

Lemma click_selects_tab_witness :
  exists s',
    step demoEnv (demo_after [Mount; AuthStateChanged None]) (Click "Schedule")
    = Some s' /\
    activeTab (ui s') = "Schedule".
Proof.
  apply (click_selects_tab demoEnv (demo_after [Mount; AuthStateChanged None])
           "Schedule");
    [vm_compute; reflexivity | vm_compute; reflexivity | right; left; reflexivity].
Defined.

Lemma buttons_renderContent (st : AppState) : buttons (renderContent st) = [].
Proof.
  unfold renderContent.
  destruct (activeTab st =? "Chat"); [reflexivity|].
  destruct (activeTab st =? "Schedule"); [reflexivity|].
  destruct (activeTab st =? "Notes"); reflexivity.
Qed.

Lemma buttons_render_ready (E : Env) (st : AppState) :
  isAuthReady st = true ->
  buttons (render E st) =
  map (fun name => (name, tabButtonClass (activeTab st =? name))) tab_labels.
Proof.
  intros Hr. unfold render. rewrite Hr. simpl.
  rewrite buttons_renderContent. now destruct (userStatus st).
Qed.

(** X3: once the component is ready, the header holds exactly the three
    tab buttons, and in every reachable state exactly one of them, the
    one of the active tab, carries the class string of the selected
    state. *)
Theorem selected_tab_is_highlighted (E : Env) (s : Sys) :
  reachable E s -> isAuthReady (ui s) = true ->
  map fst (buttons (render E (ui s))) = ["Chat"; "Schedule"; "Notes"] /\
  highlighted (render E (ui s)) = [activeTab (ui s)].
Proof.
  intros Hreach Hr. unfold highlighted.
  rewrite (buttons_render_ready E (ui s) Hr).
  split; [reflexivity|].
  destruct (reachable_tab_label E s Hreach) as [H|[H|[H|[]]]];
    rewrite <- H; vm_compute; reflexivity.
Qed.

Lemma selected_tab_is_highlighted_witness :
  highlighted
    (render demoEnv (ui (demo_after [Mount; AuthStateChanged None; Click "Notes"])))
  = ["Notes"].
Proof.
  apply (selected_tab_is_highlighted demoEnv
           (demo_after [Mount; AuthStateChanged None; Click "Notes"])).
  - exists [Mount; AuthStateChanged None; Click "Notes"]. vm_compute; reflexivity.
  - vm_compute; reflexivity.
Defined.

(** ** A failed initialization *)

(** The state the effect leaves when client initialization throws: which
    calls were made, and whether the handles were already stored. *)
Lemma bootstrap_failure_state (E : Env) (s : Sys) (e : Error) :
  config_missing E = false -> init_throws E e ->
  exists (calls : list Effect) (ui' : AppState),
    bootstrap E s =
    (Normal false,
     {| ui := with_loadingMessage
                ("Failed to initialize Firebase: " ++ message e) ui';
        trace := (trace s ++ calls
                  ++ [ConsoleError "Firebase Initialization Error:" e])%list;
        subscribed := subscribed s;
        hasCleanup := hasCleanup s;
        task := task s;
        phase := phase s;
        crashed := crashed s |}) /\
    forallb is_init_call calls = true /\
    ((ui' = ui s /\ forall c, In c calls -> auth_of c = None) \/
     (exists app d a,
         initializeApp E (firebaseConfig E) = inr app /\
         getFirestore E app = inr d /\
         getAuth E app = inr a /\
         ui' = with_auth (Some a) (with_db (Some d) (ui s)) /\
         forall c a', In c calls -> auth_of c = Some a' -> a' = a)).
Proof.
  intros Hc Ht. unfold_js. rewrite Hc.
  destruct Ht as [H1|app H1 H2|app d H1 H2 H3|app d a H1 H2 H3 H4].
  - rewrite H1; simpl.
    exists [CallInitializeApp (firebaseConfig E)], (ui s).
    split; [|split; [reflexivity|left; split; [reflexivity|]]].
    + f_equal; apply Sys_ext; cbn; try reflexivity.
      repeat rewrite <- app_assoc; reflexivity.
    + intros c [<-|[]]; reflexivity.
  - rewrite H1; simpl. rewrite H2; simpl.
    exists [CallInitializeApp (firebaseConfig E); CallGetFirestore app], (ui s).
    split; [|split; [reflexivity|left; split; [reflexivity|]]].
    + f_equal; apply Sys_ext; cbn; try reflexivity.
      repeat rewrite <- app_assoc; reflexivity.
    + intros c [<-|[<-|[]]]; reflexivity.
  - rewrite H1; simpl. rewrite H2; simpl. rewrite H3; simpl.
    exists [CallInitializeApp (firebaseConfig E); CallGetFirestore app;
            CallGetAuth app], (ui s).
    split; [|split; [reflexivity|left; split; [reflexivity|]]].
    + f_equal; apply Sys_ext; cbn; try reflexivity.
      repeat rewrite <- app_assoc; reflexivity.
    + intros c [<-|[<-|[<-|[]]]]; reflexivity.
  - rewrite H1; simpl. rewrite H2; simpl. rewrite H3; simpl. rewrite H4; simpl.
    exists [CallInitializeApp (firebaseConfig E); CallGetFirestore app;
            CallGetAuth app; CallOnAuthStateChanged a],
           (with_auth (Some a) (with_db (Some d) (ui s))).
    split; [|split; [reflexivity|right]].
    + f_equal; apply Sys_ext; cbn; try reflexivity.
      repeat rewrite <- app_assoc; reflexivity.
    + exists app, d, a. repeat split; try assumption.
      intros c a' [<-|[<-|[<-|[<-|[]]]]]; simpl; congruence.
Qed.

Lemma filter_init_calls (f : Effect -> bool) (calls : list Effect) :
  (forall c, is_init_call c = true -> f c = false) ->
  forallb is_init_call calls = true -> filter f calls = [].
Proof.
  intros Hf. induction calls as [|c calls IH]; simpl; [reflexivity|].
  intros H. apply andb_true_iff in H as [Hc Hrest].
  rewrite (Hf c Hc). now apply IH.
Qed.

Lemma stuck_step (E : Env) (msg : string) (t : list Effect)
      (s : Sys) (ev : Event) (s' : Sys) :
  stuck msg t s -> step E s ev = Some s' -> ev = Unmount /\ stuck msg t s'.
Proof.
  intros (Hr & Hsub & Hcl & Htk & Hp & Hm & Ht) Hs. destruct ev.
  - simpl in Hs. destruct (phase s); simpl in Hs; try discriminate. now elim Hp.
  - simpl in Hs. rewrite Htk in Hs. discriminate.
  - simpl in Hs. rewrite Hsub in Hs. discriminate.
  - unfold step in Hs.
    destruct (is_mounted (phase s) && _) eqn:Hen; [|discriminate].
    apply click_enabled in Hen. destruct Hen as (_ & Hr' & _). congruence.
  - split; [reflexivity|]. simpl in Hs.
    destruct (is_mounted (phase s)); [|discriminate].
    rewrite Hcl in Hs. inversion Hs; subst.
    unfold stuck; simpl. repeat split; try assumption. discriminate.
Qed.

Lemma stuck_run (E : Env) (msg : string) (t : list Effect)
      (evs : list Event) (s s' : Sys) :
  stuck msg t s -> run E s evs = Some s' ->
  stuck msg t s' /\ forall ev, In ev evs -> ev = Unmount.
Proof.
  revert s. induction evs as [|ev evs IH]; intros s Hst Hrun; simpl in Hrun.
  - inversion Hrun; subst. split; [assumption|]. intros ev [].
  - destruct (step E s ev) as [s1|] eqn:Hs; [|discriminate].
    destruct (stuck_step E msg t s ev s1 Hst Hs) as [Hev Hst1].
    destruct (IH s1 Hst1 Hrun) as [Hst' Hall].
    split; [assumption|]. intros ev' [<-|Hin]; auto.
Qed.

(** X4: when the configuration is non-empty but a call of client
    initialization throws, the component is stuck for good: in every state
    after the effect the readiness flag is false, no listener is
    registered, no sign-in has been attempted, the loading screen shows
    "Failed to initialize Firebase: " and the exception's message, and
    the only event that can still happen is the tear-down. *)
Theorem init_failure_is_permanent (E : Env) (e : Error) :
  config_missing E = false -> init_throws E e ->
  forall evs s,
    run E initialSys (Mount :: evs) = Some s ->
    isAuthReady (ui s) = false /\
    subscribed s = false /\
    signins (trace s) = [] /\
    loadingMessage (ui s) = "Failed to initialize Firebase: " ++ message e /\
    render E (ui s) = LoadingScreen (ui s) /\
    (forall ev, In ev evs -> ev = Unmount).
Proof.
  intros Hc Ht evs s Hrun. simpl in Hrun.
  destruct (bootstrap_failure_state E initialSys e Hc Ht)
    as (calls & ui' & Hb & Hcalls & Hui).
  rewrite Hb in Hrun.
  match type of Hrun with run E ?s1 evs = _ =>
    assert (Hst : stuck ("Failed to initialize Firebase: " ++ message e)
                        (calls ++ [ConsoleError "Firebase Initialization Error:" e])
                        s1)
  end.
  { unfold stuck; simpl. repeat split; try discriminate.
    destruct Hui as [[-> _]|(app & d & a & _ & _ & _ & -> & _)]; reflexivity. }
  destruct (stuck_run E _ _ evs _ s Hst Hrun)
    as [(Hr & Hsub & _ & _ & _ & Hm & Htr) Hall].
  repeat split; try assumption.
  - rewrite Htr. unfold signins. rewrite filter_app. simpl.
    rewrite (filter_init_calls is_signin calls); [reflexivity| |exact Hcalls].
    intros c; destruct c; simpl; congruence.
  - unfold render. now rewrite Hr.
Qed.

Lemma init_failure_is_permanent_witness :
  isAuthReady (ui (state_after brokenEnv [Mount; Unmount])) = false /\
  loadingMessage (ui (state_after brokenEnv [Mount; Unmount]))
  = "Failed to initialize Firebase: invalid-api-key".
Proof.
  destruct (init_failure_is_permanent brokenEnv {| message := "invalid-api-key" |}
              eq_refl (throws_initializeApp brokenEnv _ eq_refl)
              [Unmount] (state_after brokenEnv [Mount; Unmount]))
    as (Hr & _ & _ & Hm & _).
  - vm_compute; reflexivity.
  - split; [exact Hr|exact Hm].
Defined.

(** ** The listener subscription *)

Lemma resume_state (r : Error + unit) (s : Sys) :
  snd (attemptSignIn_resume r s) =
  {| ui := ui s;
     trace := trace s ++ resume_calls (task s) r;
     subscribed := subscribed s;
     hasCleanup := hasCleanup s;
     task := resume_task (task s) r;
     phase := phase s;
     crashed := crashed s |}.
Proof.
  unfold attemptSignIn_resume, resume_calls, resume_task.
  destruct (task s) eqn:Ht, r as [err|[]]; unfold_js; simpl;
    apply Sys_ext; cbn; try reflexivity; try (now rewrite app_nil_r);
    try exact Ht.
  now rewrite <- app_assoc.
Qed.

Lemma listener_state (user : option User) (s : Sys) :
  trace (snd (authListener user s)) = trace s /\
  subscribed (snd (authListener user s)) = subscribed s /\
  hasCleanup (snd (authListener user s)) = hasCleanup s /\
  task (snd (authListener user s)) = task s /\
  phase (snd (authListener user s)) = phase s /\
  db (ui (snd (authListener user s))) = db (ui s) /\
  auth (ui (snd (authListener user s))) = auth (ui s) /\
  activeTab (ui (snd (authListener user s))) = activeTab (ui s).
Proof. unfold_js. destruct user; simpl; repeat split. Qed.

Lemma first_signin_cases (E : Env) (a : Auth) :
  (truthy_str (initialAuthToken E) = false /\
   first_signin E a = CallSignInAnonymously a) \/
  (exists token,
      initialAuthToken E = Some token /\ token <> "" /\
      first_signin E a = CallSignInWithCustomToken a token).
Proof.
  unfold first_signin. destruct (initialAuthToken E) as [token|]; simpl.
  - destruct (token =? "") eqn:Ht; simpl.
    + left; now split.
    + right. exists token. apply String.eqb_neq in Ht. now repeat split.
  - left; now split.
Qed.

Lemma lifecycle_step (E : Env) (s : Sys) (ev : Event) (s' : Sys) :
  lifecycle E s -> step E s ev = Some s' -> lifecycle E s'.
Proof.
  intros [Hph Hreg] Hs. destruct ev.
  - simpl in Hs. destruct (phase s) eqn:Hp; simpl in Hs; try discriminate.
    destruct Hph as (Hsub & Hcl & Htr & Htk).
    destruct (config_missing E) eqn:Hc.
    + rewrite bootstrap_blocked in Hs by assumption.
      inversion Hs; subst; unfold lifecycle; simpl.
      rewrite Hsub, Htr. repeat split. discriminate.
    + destruct (init_cases E) as [[e Ht]|(app & d & a & Hok)].
      * destruct (bootstrap_failure_state E s e Hc Ht)
          as (calls & ui' & Hb & Hcalls & _).
        rewrite Hb in Hs. inversion Hs; subst; unfold lifecycle; simpl.
        rewrite Hsub, Htr. simpl. repeat split; try discriminate.
        rewrite filter_app. simpl.
        rewrite (filter_init_calls is_unsubscribe calls); [reflexivity| |exact Hcalls].
        intros c; destruct c; simpl; congruence.
      * rewrite (bootstrap_success E s app d a Hc Hok) in Hs.
        inversion Hs; subst; unfold lifecycle; simpl. rewrite Htr. simpl.
        destruct Hok as (_ & _ & _ & Hok).
        destruct (first_signin_cases E a) as [[_ ->]|(token & _ & _ & ->)];
          simpl; (repeat split; [exists a; now split]).
  - simpl in Hs. destruct (awaiting (task s)) eqn:Haw; inversion Hs; subst; clear Hs.
    rewrite resume_state. unfold lifecycle in *; simpl.
    assert (Hu : filter is_unsubscribe (resume_calls (task s) r) = []).
    { unfold resume_calls. destruct (task s), r; reflexivity. }
    assert (Hg : filter is_registration (resume_calls (task s) r) = []).
    { unfold resume_calls. destruct (task s), r; reflexivity. }
    rewrite !filter_app, Hu, Hg, !app_nil_r.
    split; [|exact Hreg].
    destruct (phase s); try assumption.
    destruct Hph as (_ & _ & _ & Htk). rewrite Htk in Haw. discriminate.
  - unfold step in Hs.
    assert (Hs' : s' = snd (authListener user s))
      by (destruct (subscribed s); congruence).
    subst s'. clear Hs.
    destruct (listener_state user s) as (Ht & Hsb & Hcl & Htk & Hp & _).
    unfold lifecycle. rewrite Ht, Hsb, Hcl, Htk, Hp. now split.
  - unfold step in Hs.
    destruct (is_mounted (phase s) && _); inversion Hs; subst; clear Hs.
    unfold_js. unfold lifecycle in *; simpl. now split.
  - simpl in Hs. destruct (phase s) eqn:Hp; simpl in Hs; try discriminate.
    inversion Hs; subst; clear Hs. destruct Hph as [Hsub Hun].
    destruct (hasCleanup s) eqn:Hcl; unfold_js; unfold lifecycle in *; simpl.
    + rewrite Hcl. rewrite !filter_app, Hun. simpl. rewrite app_nil_r.
      split; [split; reflexivity|]. intros _.
      exact (Hreg eq_refl).
    + rewrite Hcl. split; [split; [congruence|assumption]|discriminate].
Qed.

Lemma reachable_lifecycle (E : Env) (s : Sys) : reachable E s -> lifecycle E s.
Proof.
  revert s. apply (reachable_invariant E (lifecycle E)).
  - unfold lifecycle; simpl. repeat split. discriminate.
  - apply lifecycle_step.
Qed.

(** X5: in every reachable state the listener is registered only while
    the component is mounted, and then exactly when the effect returned
    its cleanup; before tear-down unsubscribe has not been called; after
    tear-down the listener is not registered, the provider can no longer
    call it, and unsubscribe has been called exactly once if the effect
    had registered a listener and not at all otherwise. *)
Theorem listener_released_on_unmount (E : Env) (s : Sys) :
  reachable E s ->
  (subscribed s = true -> phase s = Mounted /\ hasCleanup s = true) /\
  (phase s = Mounted -> subscribed s = hasCleanup s) /\
  (phase s <> Unmounted -> filter is_unsubscribe (trace s) = []) /\
  (phase s = Unmounted ->
   subscribed s = false /\
   (forall user, step E s (AuthStateChanged user) = None) /\
   filter is_unsubscribe (trace s)
   = if hasCleanup s then [CallUnsubscribe] else []) /\
  (hasCleanup s = true ->
   exists a, filter is_registration (trace s) = [CallOnAuthStateChanged a]).
Proof.
  intros Hr. destruct (reachable_lifecycle E s Hr) as [Hph Hreg].
  split; [|split; [|split; [|split]]].
  - intros Hsub. destruct (phase s); destruct Hph as [Hsub' Hrest];
      try congruence. split; [reflexivity|congruence].
  - intros Hp. rewrite Hp in Hph. now destruct Hph.
  - intros Hp. destruct (phase s); try (now elim Hp).
    + destruct Hph as (_ & _ & -> & _). reflexivity.
    + now destruct Hph.
  - intros Hp. rewrite Hp in Hph. destruct Hph as [Hsub Hun].
    split; [exact Hsub|]. split; [|exact Hun].
    intros user. simpl. now rewrite Hsub.
  - intros Hcl. destruct (Hreg Hcl) as (a & Ha & _). now exists a.
Qed.

Lemma listener_released_on_unmount_witness :
  subscribed (state_after demoEnv [Mount; AuthStateChanged None; Unmount]) = false /\
  step demoEnv (state_after demoEnv [Mount; AuthStateChanged None; Unmount])
       (AuthStateChanged (Some alice)) = None.
Proof.
  destruct (listener_released_on_unmount demoEnv
              (state_after demoEnv [Mount; AuthStateChanged None; Unmount]))
    as (_ & _ & _ & Hun & _).
  - exists [Mount; AuthStateChanged None; Unmount]. vm_compute; reflexivity.
  - destruct Hun as (Hsub & Hno & _); [vm_compute; reflexivity|].
    split; [exact Hsub|apply Hno].
Defined.

(** ** How many sign-in calls, and on which handle *)

Lemma filter_filter_sub {A : Type} (f g : A -> bool) (l : list A) :
  (forall x, f x = true -> g x = true) ->
  filter f (filter g l) = filter f l.
Proof.
  intros Hfg. induction l as [|x l IH]; simpl; [reflexivity|].
  destruct (g x) eqn:Hg; simpl.
  - now rewrite IH.
  - destruct (f x) eqn:Hf; [|exact IH].
    rewrite (Hfg x Hf) in Hg. discriminate.
Qed.

Lemma first_signin_is_signin (E : Env) (a : Auth) :
  is_signin (first_signin E a) = true.
Proof.
  destruct (first_signin_cases E a) as [[_ ->]|(token & _ & _ & ->)]; reflexivity.
Qed.

Lemma signin_shape_step (E : Env) (s : Sys) (ev : Event) (s' : Sys) :
  signin_shape E s -> step E s ev = Some s' -> signin_shape E s'.
Proof.
  intros [H0 Hsh] Hs. destruct ev.
  - simpl in Hs. destruct (phase s) eqn:Hp; simpl in Hs; try discriminate.
    destruct (H0 eq_refl) as [Htr Htk].
    destruct (config_missing E) eqn:Hc.
    + rewrite bootstrap_blocked in Hs by assumption.
      inversion Hs; subst; unfold signin_shape; simpl.
      rewrite Htr, Htk. split; [discriminate|reflexivity].
    + destruct (init_cases E) as [[e Ht]|(app & d & a & Hok)].
      * destruct (bootstrap_failure_state E s e Hc Ht)
          as (calls & ui' & Hb & Hcalls & _).
        rewrite Hb in Hs. inversion Hs; subst; unfold signin_shape; simpl.
        rewrite Htr, Htk. split; [discriminate|]. simpl.
        unfold signins. rewrite filter_app. simpl.
        rewrite (filter_init_calls is_signin calls); [reflexivity| |exact Hcalls].
        intros c; destruct c; simpl; congruence.
      * rewrite (bootstrap_success E s app d a Hc Hok) in Hs.
        inversion Hs; subst; unfold signin_shape; simpl.
        rewrite Htr. split; [discriminate|]. unfold signins. simpl.
        now rewrite first_signin_is_signin.
  - simpl in Hs. destruct (awaiting (task s)) eqn:Haw; inversion Hs; subst; clear Hs.
    rewrite resume_state. unfold signin_shape; simpl. split.
    + intros Hp. destruct (H0 Hp) as [_ Htk]. rewrite Htk in Haw. discriminate.
    + unfold signins in *. rewrite filter_app.
      destruct (task s) as [ |a|a| | ]; try discriminate;
        destruct r as [err|[]]; simpl; rewrite Hsh; simpl;
        try reflexivity; exists a; auto.
  - unfold step in Hs.
    assert (Hs' : s' = snd (authListener user s))
      by (destruct (subscribed s); congruence).
    subst s'. clear Hs.
    destruct (listener_state user s) as (Ht & _ & _ & Htk & Hp & _).
    unfold signin_shape. rewrite Ht, Htk, Hp. now split.
  - unfold step in Hs.
    destruct (is_mounted (phase s) && _); inversion Hs; subst; clear Hs.
    unfold_js. unfold signin_shape in *; simpl. now split.
  - simpl in Hs. destruct (phase s) eqn:Hp; simpl in Hs; try discriminate.
    inversion Hs; subst; clear Hs.
    destruct (hasCleanup s); unfold_js; unfold signin_shape in *; simpl;
      (split; [discriminate|]); [|exact Hsh].
    unfold signins in *. rewrite filter_app. simpl. now rewrite app_nil_r.
Qed.

Lemma reachable_signin_shape (E : Env) (s : Sys) :
  reachable E s ->
  exists a,
    signins (trace s) = [] \/
    signins (trace s) = [first_signin E a] \/
    signins (trace s) = [first_signin E a; CallSignInAnonymously a].
Proof.
  intros Hr.
  assert (Hsh : signin_shape E s).
  { revert s Hr. apply (reachable_invariant E (signin_shape E)).
    - unfold signin_shape; simpl. now repeat split.
    - apply signin_shape_step. }
  destruct Hsh as [_ Hsh].
  destruct (task s) as [ |a|a| |e].
  - exists (AuthHandle 0). auto.
  - exists a. auto.
  - exists a. auto.
  - destruct Hsh as [a [H|H]]; exists a; auto.
  - destruct Hsh as [a [H|H]]; exists a; auto.
Qed.

(** X6: in every reachable state the program has made at most two sign-in
    calls and at most one with the token; a token sign-in call, when there
    is one, is the first sign-in call and carries the non-empty token of
    the environment (so a null or empty token is never sent); and with a
    non-empty token anonymous sign-in is attempted at most once. *)
Theorem sign_in_calls_bounded (E : Env) (s : Sys) :
  reachable E s ->
  List.length (signins (trace s)) <= 2 /\
  List.length (filter is_token_signin (trace s)) <= 1 /\
  (forall a token,
      In (CallSignInWithCustomToken a token) (trace s) ->
      initialAuthToken E = Some token /\ token <> "" /\
      exists rest, signins (trace s) = CallSignInWithCustomToken a token :: rest) /\
  (truthy_str (initialAuthToken E) = true -> anonymous_attempts (trace s) <= 1).
Proof.
  intros Hr. destruct (reachable_signin_shape E s Hr) as [a Hsh].
  assert (Htok : filter is_token_signin (trace s)
                 = filter is_token_signin (signins (trace s))).
  { symmetry. apply filter_filter_sub. intros x; destruct x; simpl; congruence. }
  assert (Han : anonymous_attempts (trace s)
                = List.length (filter is_anonymous_signin (signins (trace s)))).
  { unfold anonymous_attempts. f_equal. symmetry.
    apply filter_filter_sub. intros x; destruct x; simpl; congruence. }
  split; [|split; [|split]].
  - destruct Hsh as [->|[->| ->]]; simpl; lia.
  - rewrite Htok.
    destruct Hsh as [->|[->| ->]]; simpl; try lia;
      destruct (is_token_signin (first_signin E a)); simpl; lia.
  - intros a0 token Hin.
    assert (Hin' : In (CallSignInWithCustomToken a0 token) (signins (trace s))).
    { unfold signins. apply filter_In. now split. }
    destruct (first_signin_cases E a) as [[_ Hf]|(tok & Htk & Hne & Hf)].
    + rewrite Hf in Hsh.
      destruct Hsh as [H|[H|H]]; rewrite H in Hin'; simpl in Hin';
        repeat (destruct Hin' as [Hin'|Hin']; try discriminate); contradiction.
    + rewrite Hf in Hsh.
      destruct Hsh as [H|[H|H]]; rewrite H in Hin'; simpl in Hin'.
      * contradiction.
      * destruct Hin' as [Heq|[]]. inversion Heq; subst.
        repeat split; try assumption. rewrite H. eauto.
      * destruct Hin' as [Heq|[Heq|[]]]; [|discriminate].
        inversion Heq; subst.
        repeat split; try assumption. rewrite H. eauto.
  - intros Htruthy. rewrite Han.
    destruct (first_signin_cases E a) as [[Hfalse _]|(tok & _ & _ & Hf)];
      [congruence|].
    rewrite Hf in Hsh.
    destruct Hsh as [->|[->| ->]]; simpl; lia.
Qed.

Lemma sign_in_calls_bounded_witness :
  List.length
    (signins (trace (state_after (workingEnv demoConfig (Some ""))
                                 [Mount; SignInSettled (inl networkError);
                                  SignInSettled (inl networkError)]))) <= 2 /\
  List.length
    (filter is_token_signin
            (trace (state_after (workingEnv demoConfig (Some ""))
                                [Mount; SignInSettled (inl networkError);
                                 SignInSettled (inl networkError)]))) <= 1.
Proof.
  destruct (sign_in_calls_bounded (workingEnv demoConfig (Some ""))
              (state_after (workingEnv demoConfig (Some ""))
                           [Mount; SignInSettled (inl networkError);
                            SignInSettled (inl networkError)]))
    as (H2 & H1 & _).
  - exists [Mount; SignInSettled (inl networkError);
            SignInSettled (inl networkError)].
    vm_compute; reflexivity.
  - split; [exact H2|exact H1].
Defined.

Lemma handles_step (E : Env) (s : Sys) (ev : Event) (s' : Sys) :
  handles E s -> step E s ev = Some s' -> handles E s'.
Proof.
  intros (Hh & Hc & Haw & H0) Hs. destruct ev.
  - simpl in Hs. destruct (phase s) eqn:Hp; simpl in Hs; try discriminate.
    destruct (H0 eq_refl) as (Htr & Htk & Hdb & Hau).
    destruct (config_missing E) eqn:Hcm.
    + rewrite bootstrap_blocked in Hs by assumption.
      inversion Hs; subst; unfold handles; simpl.
      rewrite Htr, Htk. repeat split; try discriminate; auto.
      intros c a' [].
    + destruct (init_cases E) as [[e Ht]|(app & d & a & Hok)].
      * destruct (bootstrap_failure_state E s e Hcm Ht)
          as (calls & ui' & Hb & _ & Hui).
        rewrite Hb in Hs. inversion Hs; subst; unfold handles; simpl.
        rewrite Htr, Htk. simpl.
        destruct Hui as [[-> Hnone]|(app & d & a & H1 & H2 & H3 & -> & Hsame)];
          simpl.
        -- repeat split; try discriminate; auto.
           intros c a' Hin Hc'. apply in_app_or in Hin as [Hin|[<-|[]]].
           ++ rewrite (Hnone c Hin) in Hc'. discriminate.
           ++ discriminate.
        -- repeat split; try discriminate.
           ++ right. exists app, d, a. now repeat split.
           ++ intros c a' Hin Hc'. apply in_app_or in Hin as [Hin|[<-|[]]].
              ** now rewrite (Hsame c a' Hin Hc').
              ** discriminate.
      * rewrite (bootstrap_success E s app d a Hcm Hok) in Hs.
        inversion Hs; subst; unfold handles; simpl. rewrite Htr. simpl.
        destruct Hok as (H1 & H2 & H3 & _).
        repeat split; try discriminate.
        -- right. exists app, d, a. now repeat split.
        -- intros c a' Hin Hc'.
           destruct Hin as [<-|[<-|[<-|[<-|[<-|[]]]]]]; try discriminate.
           ++ simpl in Hc'. congruence.
           ++ destruct (first_signin_cases E a) as [[_ Hf]|(tok & _ & _ & Hf)];
                rewrite Hf in Hc'; simpl in Hc'; congruence.
        -- intros a' Ha'. congruence.
  - simpl in Hs. destruct (awaiting (task s)) eqn:Hawait; inversion Hs; subst; clear Hs.
    rewrite resume_state. unfold handles; simpl.
    split; [exact Hh|]. split; [|split].
    + intros c a' Hin Hc'. apply in_app_or in Hin as [Hin|Hin]; [eauto|].
      unfold resume_calls in Hin.
      destruct (task s) as [ |a|a| | ] eqn:Htk; try destruct Hin;
        destruct r as [err|[]]; try destruct Hin.
      * subst c. discriminate.
      * destruct H as [<-|[]]. simpl in Hc'. inversion Hc'; subst. now apply Haw.
    + intros a' Ha'. unfold resume_task in Ha'.
      destruct (task s); try discriminate; destruct r as [err|[]]; discriminate.
    + intros Hp. destruct (H0 Hp) as (_ & Htk & _). rewrite Htk in Hawait.
      discriminate.
  - unfold step in Hs.
    assert (Hs' : s' = snd (authListener user s))
      by (destruct (subscribed s); congruence).
    subst s'. clear Hs.
    destruct (listener_state user s) as (Ht & _ & _ & Htk & Hp & Hdb & Hau & _).
    unfold handles. rewrite Ht, Htk, Hp, Hdb, Hau. tauto.
  - unfold step in Hs.
    destruct (is_mounted (phase s) && _); inversion Hs; subst; clear Hs.
    unfold_js. unfold handles; simpl. tauto.
  - simpl in Hs. destruct (phase s) eqn:Hp; simpl in Hs; try discriminate.
    inversion Hs; subst; clear Hs.
    destruct (hasCleanup s); unfold_js; unfold handles; simpl;
      (split; [exact Hh|]); (split; [|split; [exact Haw|discriminate]]);
      [|exact Hc].
    intros c a' Hin Hc'. apply in_app_or in Hin as [Hin|[<-|[]]]; [eauto|].
    discriminate.
Qed.

Lemma reachable_handles (E : Env) (s : Sys) : reachable E s -> handles E s.
Proof.
  revert s. apply (reachable_invariant E (handles E)).
  - unfold handles; simpl. repeat split; try discriminate; auto.
    intros c a' [].
  - apply handles_step.
Qed.

(** X7: in every reachable state the database and auth handles are either
    both null or both the handles the SDK returned for the application
    built from the configuration, and every call that takes an auth
    handle (listener registration, token and anonymous sign-in) was made
    on the handle stored in the component state. *)
Theorem handles_come_from_sdk (E : Env) (s : Sys) :
  reachable E s ->
  (db (ui s) = None <-> auth (ui s) = None) /\
  (forall d a,
      db (ui s) = Some d -> auth (ui s) = Some a ->
      exists app,
        initializeApp E (firebaseConfig E) = inr app /\
        getFirestore E app = inr d /\
        getAuth E app = inr a) /\
  (forall c a,
      In c (trace s) -> auth_of c = Some a -> auth (ui s) = Some a).
Proof.
  intros Hr. destruct (reachable_handles E s Hr) as (Hh & Hc & _ & _).
  split; [|split].
  - destruct Hh as [[-> ->]|(app & d & a & _ & _ & _ & -> & ->)];
      split; intros; congruence.
  - intros d a Hd Ha.
    destruct Hh as [[Hd' _]|(app & d' & a' & H1 & H2 & H3 & Hd' & Ha')];
      [congruence|].
    exists app. rewrite Hd in Hd'. rewrite Ha in Ha'.
    inversion Hd'; inversion Ha'; subst. now repeat split.
  - exact Hc.
Qed.

Lemma handles_come_from_sdk_witness :
  auth (ui (state_after demoEnv [Mount; SignInSettled (inl networkError)]))
  = Some (AuthHandle 3).
Proof.
  destruct (handles_come_from_sdk demoEnv
              (state_after demoEnv [Mount; SignInSettled (inl networkError)]))
    as (_ & _ & Hcalls).
  - exists [Mount; SignInSettled (inl networkError)]. vm_compute; reflexivity.
  - apply (Hcalls (CallSignInAnonymously (AuthHandle 3)) (AuthHandle 3)).
    + vm_compute. right; right; right; right; left; reflexivity.
    + reflexivity.
Defined.

(** ** The status line *)

Lemma status_consistent_step (E : Env) (s : Sys) (ev : Event) (s' : Sys) :
  lifecycle E s -> status_consistent s -> step E s ev = Some s' ->
  status_consistent s'.
Proof.
  intros Hlife [H0 Hst] Hs. destruct ev.
  - simpl in Hs. destruct (phase s) eqn:Hp; simpl in Hs; try discriminate.
    destruct (H0 eq_refl) as [Hsub Hr]. rewrite Hr in Hst.
    pose proof (bootstrap_frame E s) as (Hu & Hb & _ & Hus & _).
    destruct (bootstrap E s) as [[c|e] s1]; inversion Hs; subst;
      unfold status_consistent; simpl in *;
      rewrite Hb, Hr, Hus, Hu; (split; [discriminate|exact Hst]).
  - simpl in Hs. destruct (awaiting (task s)) eqn:Haw; inversion Hs; subst; clear Hs.
    rewrite resume_state. unfold status_consistent; simpl. split; [|exact Hst].
    intros Hp. destruct Hlife as [Hph _]. rewrite Hp in Hph.
    destruct Hph as (_ & _ & _ & Htk). rewrite Htk in Haw. discriminate.
  - unfold step in Hs. destruct (subscribed s) eqn:Hsub; [|discriminate].
    inversion Hs; subst; clear Hs.
    destruct (listener_state user s) as (_ & _ & _ & _ & Hp & _).
    unfold status_consistent. rewrite Hp. split.
    + intros Hp'. destruct (H0 Hp') as [Hsub' _]. congruence.
    + unfold_js. destruct user; simpl; now split.
  - unfold step in Hs.
    destruct (is_mounted (phase s) && _) eqn:Hen; inversion Hs; subst; clear Hs.
    apply click_enabled in Hen. destruct Hen as (Hp & _).
    unfold_js. unfold status_consistent in *; simpl.
    split; [rewrite Hp; discriminate|exact Hst].
  - simpl in Hs. destruct (phase s) eqn:Hp; simpl in Hs; try discriminate.
    inversion Hs; subst; clear Hs.
    destruct (hasCleanup s); unfold_js; unfold status_consistent in *; simpl;
      (split; [discriminate|exact Hst]).
Qed.

Lemma reachable_status_consistent (E : Env) (s : Sys) :
  reachable E s -> status_consistent s.
Proof.
  intros Hr.
  assert (H : lifecycle E s /\ status_consistent s).
  { revert s Hr.
    apply (reachable_invariant E (fun s => lifecycle E s /\ status_consistent s)).
    - split.
      + unfold lifecycle; simpl. repeat split. discriminate.
      + unfold status_consistent; simpl. now repeat split.
    - intros s ev s' [Hl Hs] Hstep. split.
      + eapply lifecycle_step; eassumption.
      + eapply status_consistent_step; eassumption. }
  apply H.
Qed.

(** X8: in every reachable state the status line and the loading message
    agree with the session identity: before readiness there is no status
    line; once ready, a signed-in identity comes with "Logged in as: "
    followed by the first eight characters of the identity and "...",
    and with the success message, and a null identity comes with
    "Authentication failed or not started." and "Authentication
    established.". *)
Theorem status_follows_identity (E : Env) (s : Sys) :
  reachable E s ->
  (isAuthReady (ui s) = false -> userStatus (ui s) = None) /\
  (forall u,
      isAuthReady (ui s) = true -> userId (ui s) = Some u ->
      userStatus (ui s) = Some ("Logged in as: " ++ substring 0 8 u ++ "...") /\
      loadingMessage (ui s) = "Authentication successful. Ready to load data.") /\
  (isAuthReady (ui s) = true -> userId (ui s) = None ->
   userStatus (ui s) = Some "Authentication failed or not started." /\
   loadingMessage (ui s) = "Authentication established.").
Proof.
  intros Hr. destruct (reachable_status_consistent E s Hr) as [_ Hst].
  split; [|split].
  - intros Hready. rewrite Hready in Hst. apply Hst.
  - intros u Hready Hu. rewrite Hready, Hu in Hst. exact Hst.
  - intros Hready Hu. rewrite Hready, Hu in Hst. exact Hst.
Qed.

Lemma status_follows_identity_witness :
  userStatus (ui (state_after demoEnv
                    [Mount; AuthStateChanged None; AuthStateChanged (Some alice);
                     Click "Notes"]))
  = Some "Logged in as: u-alice-...".
Proof.
  destruct (status_follows_identity demoEnv
              (state_after demoEnv
                 [Mount; AuthStateChanged None; AuthStateChanged (Some alice);
                  Click "Notes"])) as (_ & Hin & _).
  - exists [Mount; AuthStateChanged None; AuthStateChanged (Some alice);
            Click "Notes"].
    vm_compute; reflexivity.
  - destruct (Hin "u-alice-0123456789") as [Hst _];
      [vm_compute; reflexivity | vm_compute; reflexivity | exact Hst].
Defined.

Lemma length_append (s1 s2 : string) :
  String.length (s1 ++ s2) = String.length s1 + String.length s2.
Proof. induction s1 as [|c s1 IH]; simpl; [reflexivity|now rewrite IH]. Qed.

Lemma append_empty_r (s : string) : s ++ "" = s.
Proof. induction s as [|c s IH]; simpl; [reflexivity|now rewrite IH]. Qed.

Lemma substring_prefix (n : nat) (s : string) :
  exists rest,
    s = substring 0 n s ++ rest /\
    String.length (substring 0 n s) = Nat.min n (String.length s).
Proof.
  revert s. induction n as [|n IH]; intros s.
  - exists s. destruct s; simpl; auto.
  - destruct s as [|c s]; simpl.
    + exists "". auto.
    + destruct (IH s) as (rest & Hs & Hl). exists rest. split.
      * now rewrite <- Hs.
      * now rewrite Hl.
Qed.

(** X9: the status line written for a signed-in user shows a prefix of
    the user's identifier of at most eight characters: the whole
    identifier when it has eight characters or fewer, its first eight
    otherwise. *)
Theorem status_shows_uid_prefix (E : Env) (s : Sys) (u : User) (s' : Sys) :
  step E s (AuthStateChanged (Some u)) = Some s' ->
  exists shown rest,
    userStatus (ui s') = Some ("Logged in as: " ++ shown ++ "...") /\
    uid u = shown ++ rest /\
    String.length shown = Nat.min 8 (String.length (uid u)) /\
    (String.length (uid u) <= 8 -> shown = uid u).
Proof.
  intros Hs. unfold step in Hs.
  destruct (subscribed s); [|discriminate]. inversion Hs; subst; clear Hs.
  destruct (substring_prefix 8 (uid u)) as (rest & Hu & Hl).
  exists (substring 0 8 (uid u)), rest. split; [reflexivity|].
  split; [exact Hu|]. split; [exact Hl|].
  intros Hle.
  assert (Hrest : String.length rest = 0).
  { apply (f_equal String.length) in Hu.
    rewrite length_append, Hl in Hu. lia. }
  destruct rest; [|discriminate].
  rewrite append_empty_r in Hu. now symmetry.
Qed.

Lemma status_shows_uid_prefix_witness :
  exists shown rest,
    userStatus (ui (state_after demoEnv [Mount; AuthStateChanged (Some alice)]))
    = Some ("Logged in as: " ++ shown ++ "...") /\
    uid alice = shown ++ rest /\
    String.length shown = 8.
Proof.
  destruct (status_shows_uid_prefix demoEnv (state_after demoEnv [Mount]) alice
              (state_after demoEnv [Mount; AuthStateChanged (Some alice)]))
    as (shown & rest & H1 & H2 & H3 & _).
  - vm_compute; reflexivity.
  - exists shown, rest. split; [exact H1|]. split; [exact H2|exact H3].
Defined.

(** ** The per-user path *)

(** X10: in every reachable state the path helper returns null, and does
    not call the SDK, as long as the readiness flag is false; whenever it
    returns a collection reference, the component is ready, a non-empty
    identity is set, the database handle is the one the SDK returned, and
    the reference is the SDK's for the path built from the application id,
    that identity and the collection name. *)
Theorem private_ref_needs_sign_in (E : Env) (s : Sys) (name : string) :
  reachable E s ->
  (isAuthReady (ui s) = false ->
   getPrivateCollectionRef E (ui s) name = Normal None) /\
  (forall ref,
      getPrivateCollectionRef E (ui s) name = Normal (Some ref) ->
      isAuthReady (ui s) = true /\
      exists app d u,
        initializeApp E (firebaseConfig E) = inr app /\
        getFirestore E app = inr d /\
        db (ui s) = Some d /\
        userId (ui s) = Some u /\ u <> "" /\
        collection E d (privatePath (appId E) u name) = inr ref).
Proof.
  intros Hr. split.
  - intros Hready. unfold getPrivateCollectionRef.
    rewrite (not_ready_no_identity E s Hr Hready). now destruct (db (ui s)).
  - intros ref Href.
    destruct (isAuthReady (ui s)) eqn:Hready.
    + split; [reflexivity|].
      destruct (reachable_handles E s Hr) as (Hh & _).
      unfold getPrivateCollectionRef in Href.
      destruct (db (ui s)) as [d|] eqn:Hd; [|discriminate].
      destruct (userId (ui s)) as [u|] eqn:Hu; [|discriminate].
      unfold truthy_str in Href.
      destruct (u =? "") eqn:Hne; simpl in Href; [discriminate|].
      apply String.eqb_neq in Hne.
      destruct Hh as [[Hd' _]|(app & d' & a & H1 & H2 & _ & Hd' & _)];
        [discriminate|].
      inversion Hd'; subst d'.
      exists app, d, u. unfold privatePath.
      destruct (collection E d _) as [e|ref'] eqn:Hc; [discriminate|].
      inversion Href; subst. now repeat split.
    + unfold getPrivateCollectionRef in Href.
      rewrite (not_ready_no_identity E s Hr Hready) in Href.
      destruct (db (ui s)); discriminate.
Qed.

Lemma private_ref_needs_sign_in_witness :
  getPrivateCollectionRef demoEnv
    (ui (state_after demoEnv [Mount; SignInSettled (inr tt)])) "notes"
  = Normal None.
Proof.
  apply (private_ref_needs_sign_in demoEnv
           (state_after demoEnv [Mount; SignInSettled (inr tt)]) "notes").
  - exists [Mount; SignInSettled (inr tt)]. vm_compute; reflexivity.
  - vm_compute; reflexivity.
Defined.

Lemma append_cancel_l (p s1 s2 : string) : p ++ s1 = p ++ s2 -> s1 = s2.
Proof.
  induction p as [|c p IH]; simpl; intros H; [exact H|].
  inversion H. now apply IH.
Qed.

Lemma append_cancel_r (s1 s2 t : string) : s1 ++ t = s2 ++ t -> s1 = s2.
Proof.
  revert s2. induction s1 as [|c s1 IH]; intros s2 H.
  - destruct s2 as [|c2 s2]; [reflexivity|].
    apply (f_equal String.length) in H. simpl in H.
    rewrite length_append in H. lia.
  - destruct s2 as [|c2 s2].
    + apply (f_equal String.length) in H. simpl in H.
      rewrite length_append in H. lia.
    + simpl in H. inversion H. f_equal. now apply IH.
Qed.

(** The first separator of a string decides its split. *)
Lemma split_at_slash (s1 s2 r1 r2 : string) :
  slash_free s1 = true -> slash_free s2 = true ->
  s1 ++ String "/" r1 = s2 ++ String "/" r2 ->
  s1 = s2 /\ r1 = r2.
Proof.
  revert s2. induction s1 as [|c s1 IH]; intros s2 H1 H2 Heq.
  - destruct s2 as [|c2 s2]; simpl in *.
    + inversion Heq. now split.
    + inversion Heq; subst c2. rewrite Ascii.eqb_refl in H2. discriminate.
  - destruct s2 as [|c2 s2]; simpl in *.
    + inversion Heq; subst c. rewrite Ascii.eqb_refl in H1. discriminate.
    + inversion Heq; subst c2.
      apply andb_true_iff in H1 as [_ H1]. apply andb_true_iff in H2 as [_ H2].
      destruct (IH s2 H1 H2 H3) as [-> ->]. now split.
Qed.

(** X11: the path of a per-user collection determines its parts: for
    application ids and identities without a path separator, equal paths
    mean the same application, the same identity and the same collection
    name; for one application, two identities never share the path of a
    collection name, and one identity never gets the same path for two
    collection names, separators or not. *)
Theorem private_paths_do_not_collide :
  (forall app1 app2 u1 u2 n1 n2,
      slash_free app1 = true -> slash_free app2 = true ->
      slash_free u1 = true -> slash_free u2 = true ->
      privatePath app1 u1 n1 = privatePath app2 u2 n2 ->
      app1 = app2 /\ u1 = u2 /\ n1 = n2) /\
  (forall app u1 u2 n,
      privatePath app u1 n = privatePath app u2 n -> u1 = u2) /\
  (forall app u n1 n2,
      privatePath app u n1 = privatePath app u n2 -> n1 = n2).
Proof.
  unfold privatePath. split; [|split].
  - intros app1 app2 u1 u2 n1 n2 Ha1 Ha2 Hu1 Hu2 Heq.
    apply (append_cancel_l "artifacts/") in Heq.
    change (app1 ++ String "/" ("users/" ++ u1 ++ "/" ++ n1)
            = app2 ++ String "/" ("users/" ++ u2 ++ "/" ++ n2)) in Heq.
    destruct (split_at_slash _ _ _ _ Ha1 Ha2 Heq) as [-> Hrest].
    apply (append_cancel_l "users/") in Hrest.
    change (u1 ++ String "/" n1 = u2 ++ String "/" n2) in Hrest.
    destruct (split_at_slash _ _ _ _ Hu1 Hu2 Hrest) as [-> ->].
    now repeat split.
  - intros app u1 u2 n Heq.
    apply (append_cancel_l "artifacts/") in Heq.
    apply append_cancel_l in Heq.
    apply (append_cancel_l "/users/") in Heq.
    now apply append_cancel_r in Heq.
  - intros app u n1 n2 Heq.
    apply (append_cancel_l "artifacts/") in Heq.
    apply append_cancel_l in Heq.
    apply (append_cancel_l "/users/") in Heq.
    apply append_cancel_l in Heq.
    now apply (append_cancel_l "/") in Heq.
Qed.

Lemma private_paths_do_not_collide_witness :
  "default-app-id" = "default-app-id" /\ "u1" = "u1" /\ "notes" = "notes".
Proof.
  apply (proj1 private_paths_do_not_collide
           "default-app-id" "default-app-id" "u1" "u1" "notes" "notes");
    reflexivity.
Defined.

(** ** The configuration check *)

Lemma bootstrap_calls_initializeApp (E : Env) (s : Sys) :
  config_missing E = false ->
  In (CallInitializeApp (firebaseConfig E)) (trace (snd (bootstrap E s))).
Proof.
  intros Hc.
  destruct (init_cases E) as [[e Ht]|(app & d & a & Hok)].
  - destruct (bootstrap_failure_state E s e Hc Ht) as (calls & ui' & Hb & _ & _).
    rewrite Hb. simpl.
    assert (Hhd : exists rest, calls = CallInitializeApp (firebaseConfig E) :: rest).
    { revert Hb. unfold_js. rewrite Hc.
      destruct Ht as [H1|app H1 H2|app d H1 H2 H3|app d a H1 H2 H3 H4];
        rewrite H1; simpl; try (rewrite H2; simpl); try (rewrite H3; simpl);
        try (rewrite H4; simpl);
        intros Hb; apply (f_equal (fun p => trace (snd p))) in Hb;
        cbn in Hb; rename Hb into Htr;
        repeat rewrite <- app_assoc in Htr; apply app_inv_head in Htr;
        simpl in Htr; destruct calls as [|c calls];
        simpl in Htr; inversion Htr; eauto. }
    destruct Hhd as [rest ->]. apply in_or_app. right. now left.
  - rewrite (bootstrap_success E s app d a Hc Hok). simpl.
    apply in_or_app. right. now left.
Qed.

(** X12: the effect goes on to build a client exactly for a configuration
    that is a non-empty object, a non-empty array or a non-empty string;
    null, booleans, numbers and the empty object, array and string are
    all treated as a missing configuration, for which [initializeApp] is
    never called. *)
Theorem config_check_accepts (E : Env) :
  config_missing E = negb (has_own_keys (firebaseConfig E)) /\
  (forall s,
      step E initialSys Mount = Some s ->
      (In (CallInitializeApp (firebaseConfig E)) (trace s) <->
       has_own_keys (firebaseConfig E) = true)).
Proof.
  assert (Hc : config_missing E = negb (has_own_keys (firebaseConfig E))).
  { unfold config_missing, truthy, Object_keys, has_own_keys.
    destruct (firebaseConfig E) as [ |b|z|str|items|fields]; simpl.
    - reflexivity.
    - now destruct b.
    - now destruct (Z.eqb z 0).
    - now destruct str.
    - now destruct items.
    - now destruct fields. }
  split; [exact Hc|].
  intros s Hs. simpl in Hs.
  destruct (has_own_keys (firebaseConfig E)) eqn:Hk; simpl in Hc.
  - split; [reflexivity|]. intros _.
    pose proof (bootstrap_calls_initializeApp E initialSys Hc) as Hin.
    destruct (bootstrap E initialSys) as [[c|e] s1]; inversion Hs; subst;
      exact Hin.
  - rewrite bootstrap_blocked in Hs by assumption.
    inversion Hs; subst; simpl. split; [intros []|discriminate].
Qed.

Lemma config_check_accepts_witness :
  In (CallInitializeApp (JStr "ab"))
     (trace (state_after (workingEnv (JStr "ab") None) [Mount])).
Proof.
  apply (proj2 (config_check_accepts (workingEnv (JStr "ab") None))
           (state_after (workingEnv (JStr "ab") None) [Mount])).
  - vm_compute; reflexivity.
  - reflexivity.
Defined.

(** ** How the sign-in sequence ends *)

(** Events other than the settling of a sign-in leave [attemptSignIn]
    where it is. *)
Lemma quiet_run (E : Env) (evs : list Event) (s s' : Sys) :
  phase s <> BeforeEffect ->
  (forall r, ~ In (SignInSettled r) evs) ->
  run E s evs = Some s' ->
  phase s' <> BeforeEffect /\ task s' = task s.
Proof.
  revert s. induction evs as [|ev evs IH]; intros s Hp Hno Hrun; simpl in Hrun.
  - inversion Hrun; subst. auto.
  - destruct (step E s ev) as [s1|] eqn:Hs; [|discriminate].
    assert (H1 : phase s1 <> BeforeEffect /\ task s1 = task s).
    { destruct ev.
      - simpl in Hs. destruct (phase s); simpl in Hs; try discriminate.
        now elim Hp.
      - elim (Hno r). now left.
      - unfold step in Hs. destruct (subscribed s); inversion Hs; subst.
        destruct (listener_state user s) as (_ & _ & _ & Htk & Hph & _).
        rewrite Htk, Hph. auto.
      - unfold step in Hs.
        destruct (is_mounted (phase s) && _); inversion Hs; subst.
        unfold_js; simpl; auto.
      - simpl in Hs. destruct (phase s) eqn:Hph; simpl in Hs; try discriminate.
        inversion Hs; subst. destruct (hasCleanup s); unfold_js; simpl;
          split; try discriminate; reflexivity. }
    destruct H1 as [Hp1 Ht1].
    destruct (IH s1 Hp1) as [Hp' Ht']; [|exact Hrun|].
    + intros r Hin. apply (Hno r). now right.
    + split; [exact Hp'|congruence].
Qed.

(** Once [attemptSignIn] has returned, no sign-in settles any more. *)
Lemma finished_run (E : Env) (evs : list Event) (s s' : Sys) :
  phase s <> BeforeEffect -> awaiting (task s) = false ->
  run E s evs = Some s' ->
  task s' = task s /\ forall r, ~ In (SignInSettled r) evs.
Proof.
  revert s. induction evs as [|ev evs IH]; intros s Hp Haw Hrun; simpl in Hrun.
  - inversion Hrun; subst. split; [reflexivity|]. intros r [].
  - destruct (step E s ev) as [s1|] eqn:Hs; [|discriminate].
    assert (Hev : forall r, ev <> SignInSettled r).
    { intros r ->. simpl in Hs. rewrite Haw in Hs. discriminate. }
    destruct (quiet_run E [ev] s s1 Hp) as [Hp1 Ht1].
    { intros r [H|[]]. now apply (Hev r). }
    { simpl. now rewrite Hs. }
    destruct (IH s1 Hp1) as [Ht' Hno]; [now rewrite Ht1|exact Hrun|].
    split; [congruence|].
    intros r [H|H]; [now apply (Hev r)|now apply (Hno r)].
Qed.

(** Where [attemptSignIn] stands right after its first sign-in call was
    answered by [r], in a run whose effect went through. *)
Lemma first_settle_state (E : Env) (app : FirebaseApp) (d : Firestore)
      (a : Auth) (r : Error + unit) (evs1 : list Event) (s : Sys) :
  config_missing E = false -> init_succeeds E app d a ->
  (forall r', ~ In (SignInSettled r') evs1) ->
  run E initialSys (Mount :: evs1 ++ [SignInSettled r]) = Some s ->
  phase s <> BeforeEffect /\ task s = resume_task (AwaitingFirst a) r.
Proof.
  intros Hc Hok Hno Hrun.
  change (Mount :: evs1 ++ [SignInSettled r])
    with ([Mount] ++ evs1 ++ [SignInSettled r])%list in Hrun.
  rewrite run_app in Hrun.
  destruct (run E initialSys [Mount]) as [s1|] eqn:H1; [|discriminate].
  simpl in H1. rewrite (bootstrap_success E initialSys app d a Hc Hok) in H1.
  rewrite run_app in Hrun.
  destruct (run E s1 evs1) as [s2|] eqn:H2; [|discriminate].
  assert (Hs1 : phase s1 <> BeforeEffect /\ task s1 = AwaitingFirst a).
  { inversion H1; subst; simpl. split; [discriminate|reflexivity]. }
  destruct Hs1 as [Hp1 Ht1].
  destruct (quiet_run E evs1 s1 s2 Hp1 Hno H2) as [Hp2 Ht2].
  simpl in Hrun. rewrite Ht2, Ht1 in Hrun. simpl in Hrun.
  inversion Hrun; subst. rewrite resume_state. simpl.
  rewrite Ht2, Ht1. auto.
Qed.

(** X13: with a non-empty token that the provider accepts, in every run
    the token sign-in is the only sign-in call, nothing is logged,
    anonymous sign-in is never attempted, [attemptSignIn] ends fulfilled
    and no sign-in settles after that. *)
Theorem accepted_token_is_the_only_call (E : Env) (app : FirebaseApp)
        (d : Firestore) (a : Auth) (token : string) :
  config_missing E = false -> init_succeeds E app d a ->
  initialAuthToken E = Some token -> token <> "" ->
  forall evs1 evs2 s,
    (forall r, ~ In (SignInSettled r) evs1) ->
    run E initialSys (Mount :: evs1 ++ SignInSettled (inr tt) :: evs2) = Some s ->
    auth_log (trace s) = [CallSignInWithCustomToken a token] /\
    anonymous_attempts (trace s) = 0 /\
    task s = Fulfilled /\
    (forall r, ~ In (SignInSettled r) evs2).
Proof.
  intros Hc Hok Htok Hne evs1 evs2 s Hno Hrun.
  assert (Hfirst : first_signin E a = CallSignInWithCustomToken a token).
  { unfold first_signin. rewrite Htok. simpl.
    apply String.eqb_neq in Hne. now rewrite Hne. }
  split; [|split].
  - unfold auth_log.
    destruct (settled_trace E is_auth_effect app d a (inr tt) evs1 evs2 s
                eq_refl Hc Hok Hno Hrun) as [-> _].
    rewrite Hfirst. reflexivity.
  - unfold anonymous_attempts.
    destruct (settled_trace E is_anonymous_signin app d a (inr tt) evs1 evs2 s
                eq_refl Hc Hok Hno Hrun) as [-> _].
    rewrite Hfirst. reflexivity.
  - replace (Mount :: evs1 ++ SignInSettled (inr tt) :: evs2)
      with ((Mount :: evs1 ++ [SignInSettled (inr tt)]) ++ evs2)%list in Hrun
      by (simpl; now rewrite <- app_assoc).
    rewrite run_app in Hrun.
    destruct (run E initialSys (Mount :: evs1 ++ [SignInSettled (inr tt)]))
      as [s3|] eqn:H3; [|discriminate].
    destruct (first_settle_state E app d a (inr tt) evs1 s3 Hc Hok Hno H3)
      as [Hp3 Ht3].
    simpl in Ht3.
    destruct (finished_run E evs2 s3 s Hp3) as [Ht Hnone];
      [now rewrite Ht3 | exact Hrun |].
    split; [congruence|exact Hnone].
Qed.

Lemma accepted_token_is_the_only_call_witness :
  auth_log (trace (state_after (workingEnv demoConfig (Some "valid"))
                               [Mount; AuthStateChanged (Some alice);
                                SignInSettled (inr tt); Unmount]))
  = [CallSignInWithCustomToken (AuthHandle 3) "valid"].
Proof.
  apply (accepted_token_is_the_only_call
           (workingEnv demoConfig (Some "valid"))
           (AppHandle 1) (FirestoreHandle 2) (AuthHandle 3) "valid" eq_refl
           (conj eq_refl (conj eq_refl (conj eq_refl eq_refl)))
           eq_refl ltac:(discriminate)
           [AuthStateChanged (Some alice)] [Unmount]).
  - intros r [H|[]]; discriminate.
  - vm_compute; reflexivity.
Defined.

(** X14: when the first sign-in call and the anonymous fallback are both
    rejected, in every run [attemptSignIn] ends rejected with the second
    error, which is neither caught nor logged: the only console error is
    the one for the first rejection, the sign-in calls are the first one
    and the one fallback, and no third attempt follows. *)
Theorem fallback_rejection_is_unhandled (E : Env) (app : FirebaseApp)
        (d : Firestore) (a : Auth) (e1 e2 : Error) :
  config_missing E = false -> init_succeeds E app d a ->
  forall evs1 evs2 evs3 s,
    (forall r, ~ In (SignInSettled r) evs1) ->
    (forall r, ~ In (SignInSettled r) evs2) ->
    run E initialSys
        (Mount :: evs1 ++ SignInSettled (inl e1)
               :: evs2 ++ SignInSettled (inl e2) :: evs3) = Some s ->
    task s = Rejected e2 /\
    filter is_console_error (trace s)
    = [ConsoleError "Authentication error:" e1] /\
    signins (trace s) = [first_signin E a; CallSignInAnonymously a] /\
    (forall r, ~ In (SignInSettled r) evs3).
Proof.
  intros Hc Hok evs1 evs2 evs3 s Hno1 Hno2 Hrun.
  assert (Hcons : filter is_console_error (trace s)
                  = [ConsoleError "Authentication error:" e1]).
  { destruct (settled_trace E is_console_error app d a (inl e1) evs1 _ s
                eq_refl Hc Hok Hno1 Hrun) as [-> _].
    simpl. destruct (first_signin_cases E a) as [[_ ->]|(tok & _ & _ & ->)];
      reflexivity. }
  assert (Hsig : signins (trace s) = [first_signin E a; CallSignInAnonymously a]).
  { unfold signins.
    destruct (settled_trace E is_signin app d a (inl e1) evs1 _ s
                eq_refl Hc Hok Hno1 Hrun) as [-> _].
    simpl. now rewrite first_signin_is_signin. }
  replace (Mount :: evs1 ++ SignInSettled (inl e1)
                 :: evs2 ++ SignInSettled (inl e2) :: evs3)
    with ((Mount :: evs1 ++ [SignInSettled (inl e1)])
          ++ evs2 ++ [SignInSettled (inl e2)] ++ evs3)%list in Hrun
    by (simpl; now rewrite <- app_assoc).
  rewrite run_app in Hrun.
  destruct (run E initialSys (Mount :: evs1 ++ [SignInSettled (inl e1)]))
    as [s3|] eqn:H3; [|discriminate].
  destruct (first_settle_state E app d a (inl e1) evs1 s3 Hc Hok Hno1 H3)
    as [Hp3 Ht3].
  simpl in Ht3.
  rewrite run_app in Hrun.
  destruct (run E s3 evs2) as [s4|] eqn:H4; [|discriminate].
  destruct (quiet_run E evs2 s3 s4 Hp3 Hno2 H4) as [Hp4 Ht4].
  rewrite run_app in Hrun.
  destruct (run E s4 [SignInSettled (inl e2)]) as [s5|] eqn:H5; [|discriminate].
  assert (Hs5 : phase s5 <> BeforeEffect /\ task s5 = Rejected e2).
  { simpl in H5. rewrite Ht4, Ht3 in H5. simpl in H5. inversion H5; subst.
    rewrite resume_state. simpl. rewrite Ht4, Ht3. auto. }
  destruct Hs5 as [Hp5 Ht5].
  destruct (finished_run E evs3 s5 s Hp5) as [Ht Hnone];
    [now rewrite Ht5 | exact Hrun |].
  repeat split; try assumption. congruence.
Qed.

Lemma fallback_rejection_is_unhandled_witness :
  task (state_after demoEnv
          [Mount; SignInSettled (inl networkError); Unmount;
           SignInSettled (inl {| message := "auth/operation-not-allowed" |})])
  = Rejected {| message := "auth/operation-not-allowed" |}.
Proof.
  apply (fallback_rejection_is_unhandled demoEnv
           (AppHandle 1) (FirestoreHandle 2) (AuthHandle 3)
           networkError {| message := "auth/operation-not-allowed" |} eq_refl
           (conj eq_refl (conj eq_refl (conj eq_refl eq_refl)))
           [] [Unmount] []).
  - intros r [].
  - intros r [H|[]]; discriminate.
  - vm_compute; reflexivity.
Defined.

(** ** Tear-down while a sign-in is pending *)

Lemma reachable_step (E : Env) (s : Sys) (ev : Event) (s' : Sys) :
  reachable E s -> step E s ev = Some s' -> reachable E s'.
Proof.
  intros [evs Hrun] Hs. exists (evs ++ [ev])%list.
  rewrite run_app, Hrun. simpl. now rewrite Hs.
Qed.

(** After tear-down the phase stays, and the provider cannot call the
    listener. *)
Lemma unmounted_run (E : Env) (evs : list Event) (s s' : Sys) :
  reachable E s -> phase s = Unmounted -> run E s evs = Some s' ->
  phase s' = Unmounted /\ forall user, ~ In (AuthStateChanged user) evs.
Proof.
  revert s. induction evs as [|ev evs IH]; intros s Hr Hp Hrun; simpl in Hrun.
  - inversion Hrun; subst. split; [assumption|]. intros user [].
  - destruct (step E s ev) as [s1|] eqn:Hs; [|discriminate].
    pose proof (reachable_lifecycle E s Hr) as [Hph _]. rewrite Hp in Hph.
    destruct Hph as [Hsub _].
    assert (H1 : phase s1 = Unmounted /\ forall user, ev <> AuthStateChanged user).
    { destruct ev.
      - simpl in Hs. rewrite Hp in Hs. discriminate.
      - simpl in Hs. destruct (awaiting (task s)); inversion Hs; subst.
        rewrite resume_state. simpl. split; [assumption|discriminate].
      - simpl in Hs. rewrite Hsub in Hs. discriminate.
      - unfold step in Hs. rewrite Hp in Hs. discriminate.
      - simpl in Hs. rewrite Hp in Hs. discriminate. }
    destruct H1 as [Hp1 Hev].
    destruct (IH s1 (reachable_step E s ev s1 Hr Hs) Hp1 Hrun) as [Hp' Hno].
    split; [exact Hp'|].
    intros user [H|H]; [now apply (Hev user)|now apply (Hno user)].
Qed.

Lemma unmount_run (E : Env) (evs : list Event) (s s' : Sys) :
  reachable E s -> In Unmount evs -> run E s evs = Some s' ->
  phase s' = Unmounted.
Proof.
  revert s. induction evs as [|ev evs IH]; intros s Hr Hin Hrun; [destruct Hin|].
  simpl in Hrun. destruct (step E s ev) as [s1|] eqn:Hs; [|discriminate].
  pose proof (reachable_step E s ev s1 Hr Hs) as Hr1.
  destruct Hin as [->|Hin].
  - assert (Hp1 : phase s1 = Unmounted).
    { simpl in Hs. destruct (is_mounted (phase s)); inversion Hs; subst.
      reflexivity. }
    now destruct (unmounted_run E evs s1 s' Hr1 Hp1 Hrun).
  - now apply (IH s1).
Qed.

(** Whether the effect returned a cleanup is settled by the effect. *)
Lemma hasCleanup_run (E : Env) (evs : list Event) (s s' : Sys) :
  phase s <> BeforeEffect -> run E s evs = Some s' ->
  hasCleanup s' = hasCleanup s.
Proof.
  revert s. induction evs as [|ev evs IH]; intros s Hp Hrun; simpl in Hrun.
  - now inversion Hrun; subst.
  - destruct (step E s ev) as [s1|] eqn:Hs; [|discriminate].
    assert (H1 : hasCleanup s1 = hasCleanup s /\ phase s1 <> BeforeEffect).
    { destruct ev.
      - simpl in Hs. destruct (phase s); simpl in Hs; try discriminate.
        now elim Hp.
      - simpl in Hs. destruct (awaiting (task s)); inversion Hs; subst.
        rewrite resume_state. simpl. auto.
      - unfold step in Hs. destruct (subscribed s); inversion Hs; subst.
        destruct (listener_state user s) as (_ & _ & Hh & _ & Hph & _).
        rewrite Hh, Hph. auto.
      - unfold step in Hs.
        destruct (is_mounted (phase s) && _); inversion Hs; subst.
        unfold_js; simpl; auto.
      - simpl in Hs. destruct (is_mounted (phase s)); inversion Hs; subst.
        destruct (hasCleanup s) eqn:Hcl; unfold_js; simpl;
          (split; [auto|discriminate]). }
    destruct H1 as [Hc1 Hp1]. rewrite <- Hc1. now apply IH.
Qed.

(** X15: tear-down does not cancel the sign-in sequence: when the
    component is unmounted before the first sign-in call is rejected, the
    anonymous fallback is still called, although by then the listener is
    unsubscribed, the provider can no longer call it, and the readiness
    flag stays what it was at the rejection. *)
Theorem fallback_survives_unmount (E : Env) (app : FirebaseApp)
        (d : Firestore) (a : Auth) (err : Error) :
  config_missing E = false -> init_succeeds E app d a ->
  forall evs1 evs2 s1 s,
    (forall r, ~ In (SignInSettled r) evs1) -> In Unmount evs1 ->
    run E initialSys (Mount :: evs1) = Some s1 ->
    run E s1 (SignInSettled (inl err) :: evs2) = Some s ->
    signins (trace s) = [first_signin E a; CallSignInAnonymously a] /\
    In CallUnsubscribe (trace s1) /\
    phase s = Unmounted /\ subscribed s = false /\
    (forall user, ~ In (AuthStateChanged user) evs2) /\
    isAuthReady (ui s) = isAuthReady (ui s1).
Proof.
  intros Hc Hok evs1 evs2 s1 s Hno Hun H1 H2.
  assert (Hr1 : reachable E s1) by (now exists (Mount :: evs1)).
  assert (Hp1 : phase s1 = Unmounted).
  { apply (unmount_run E (Mount :: evs1) initialSys s1); auto.
    - now exists [].
    - now right. }
  assert (Hrun : run E initialSys (Mount :: evs1 ++ SignInSettled (inl err) :: evs2)
                 = Some s).
  { change (Mount :: evs1 ++ SignInSettled (inl err) :: evs2)
      with ((Mount :: evs1) ++ SignInSettled (inl err) :: evs2)%list.
    now rewrite run_app, H1. }
  destruct (unmounted_run E _ s1 s Hr1 Hp1 H2) as [Hp Hnol].
  assert (Hr : reachable E s)
    by (now exists (Mount :: evs1 ++ SignInSettled (inl err) :: evs2)).
  split; [|split; [|split; [|split; [|split]]]].
  - unfold signins.
    destruct (settled_trace E is_signin app d a (inl err) evs1 evs2 s
                eq_refl Hc Hok Hno Hrun) as [-> _].
    simpl. now rewrite first_signin_is_signin.
  - pose proof (reachable_lifecycle E s1 Hr1) as [Hph Hreg].
    rewrite Hp1 in Hph. destruct Hph as [_ Hunsub].
    assert (Hcl : hasCleanup s1 = true).
    { simpl in H1.
      rewrite (bootstrap_success E initialSys app d a Hc Hok) in H1.
      match type of H1 with run E ?s0 evs1 = _ =>
        assert (Hp0 : phase s0 <> BeforeEffect) by (simpl; discriminate);
        rewrite (hasCleanup_run E evs1 s0 s1 Hp0 H1)
      end.
      reflexivity. }
    rewrite Hcl in Hunsub.
    assert (Hin : In CallUnsubscribe (filter is_unsubscribe (trace s1)))
      by (rewrite Hunsub; now left).
    now apply filter_In in Hin.
  - exact Hp.
  - pose proof (reachable_lifecycle E s Hr) as [Hph _].
    rewrite Hp in Hph. now destruct Hph.
  - intros user Hin. apply (Hnol user). now right.
  - apply (run_ready_unchanged E _ s1 s H2).
    intros u [H|H]; [discriminate|]. now apply (Hnol u); right.
Qed.

Lemma fallback_survives_unmount_witness :
  signins (trace (state_after demoEnv
                    [Mount; Unmount; SignInSettled (inl networkError)]))
  = [CallSignInAnonymously (AuthHandle 3); CallSignInAnonymously (AuthHandle 3)] /\
  In CallUnsubscribe (trace (state_after demoEnv [Mount; Unmount])).
Proof.
  destruct (fallback_survives_unmount demoEnv
              (AppHandle 1) (FirestoreHandle 2) (AuthHandle 3) networkError
              eq_refl (conj eq_refl (conj eq_refl (conj eq_refl eq_refl)))
              [Unmount] []
              (state_after demoEnv [Mount; Unmount])
              (state_after demoEnv
                 [Mount; Unmount; SignInSettled (inl networkError)]))
    as (Hsig & Hun & _).
  - intros r [H|[]]; discriminate.
  - now left.
  - vm_compute; reflexivity.
  - vm_compute; reflexivity.
  - split; [exact Hsig|exact Hun].
Defined.

(** ** What the page shows *)

Lemma texts_render_ready (E : Env) (st : AppState) :
  isAuthReady st = true ->
  texts (render E st) =
  (["AI Student Assistant"; "Chat"; "Schedule"; "Notes"; "User ID:"; " ";
    match userId st with
    | Some u => if truthy_str (Some u) then u else "N/A"
    | None => "N/A"
    end]
   ++ match userStatus st with
      | Some status => [status]
      | None => []
      end
   ++ texts (renderContent st)
   ++ ["Hackathon Project "; appId E])%list.
Proof.
  intros Hr. unfold render. rewrite Hr. simpl.
  rewrite !app_nil_r. now destruct (userStatus st).
Qed.

(** X16: right after a listener call the page is the shell, not the
    loading screen, and it shows the application id in the footer
    ('default-app-id' when the host supplies none); for a signed-in user
    with a non-empty identifier it shows the identifier and the
    logged-in status line; for a signed-out report, and also for a user
    whose identifier is the empty string, it shows 'N/A' as the user
    id. *)
Theorem page_after_listener (E : Env) (s : Sys) (user : option User) (s' : Sys) :
  step E s (AuthStateChanged user) = Some s' ->
  render E (ui s') <> LoadingScreen (ui s') /\
  In (appId E) (texts (render E (ui s'))) /\
  (g_app_id E = None -> In "default-app-id" (texts (render E (ui s')))) /\
  (forall u, user = Some u -> uid u <> "" ->
     In (uid u) (texts (render E (ui s'))) /\
     In ("Logged in as: " ++ substring 0 8 (uid u) ++ "...")
        (texts (render E (ui s')))) /\
  (user = None ->
   In "N/A" (texts (render E (ui s'))) /\
   In "Authentication failed or not started." (texts (render E (ui s')))) /\
  (forall u, user = Some u -> uid u = "" -> In "N/A" (texts (render E (ui s')))).
Proof.
  intros Hs. unfold step in Hs.
  destruct (subscribed s); [|discriminate]. inversion Hs; subst; clear Hs.
  assert (Hready : isAuthReady (ui (snd (authListener user s))) = true)
    by apply listener_sets_ready.
  pose proof (texts_render_ready E _ Hready) as Ht.
  assert (Hfoot : In (appId E) (texts (render E (ui (snd (authListener user s)))))).
  { rewrite Ht. do 3 (apply in_or_app; right). now right; left. }
  split; [|split; [exact Hfoot|split; [|split; [|split]]]].
  - unfold render. rewrite Hready. simpl. discriminate.
  - intros Hg. unfold appId in Hfoot. now rewrite Hg in Hfoot.
  - intros u -> Hu. apply String.eqb_neq in Hu. rewrite Ht.
    unfold_js. simpl. rewrite Hu. simpl. split.
    + do 6 right. now left.
    + do 7 right. now left.
  - intros ->. rewrite Ht. unfold_js. simpl. split.
    + do 6 right. now left.
    + do 7 right. now left.
  - intros u -> Hu. rewrite Ht. unfold_js. simpl. rewrite Hu. simpl.
    do 6 right. now left.
Qed.

Lemma page_after_listener_witness :
  In "u-alice-0123456789"
     (texts (render demoEnv
               (ui (state_after demoEnv [Mount; AuthStateChanged (Some alice)])))) /\
  In "Logged in as: u-alice-..."
     (texts (render demoEnv
               (ui (state_after demoEnv [Mount; AuthStateChanged (Some alice)])))).
Proof.
  destruct (page_after_listener demoEnv (state_after demoEnv [Mount])
              (Some alice)
              (state_after demoEnv [Mount; AuthStateChanged (Some alice)]))
    as (_ & _ & _ & Hin & _).
  - vm_compute; reflexivity.
  - apply (Hin alice); [reflexivity|discriminate].
Defined.

(** ** Module load and initialization errors *)

Example loadModule_examples :
  loadModule demoHost = Normal demoEnv /\
  loadModule malformedHost
  = Throw {| message := "Expected property name or '}' in JSON at position 1" |}.
Proof. split; vm_compute; reflexivity. Qed.

(** On a host whose configuration text is not JSON the module does not
    load: the SyntaxError of [JSON.parse] at line 13 is thrown outside
    every [try], no component state exists for a loading message to be
    set in, and the page does not come up. *)
Lemma malformed_config_text_crashes :
  JSON_parse malformedHost (config_text malformedHost)
  = inl {| message := "Expected property name or '}' in JSON at position 1" |} /\
  loadModule malformedHost
  = Throw {| message := "Expected property name or '}' in JSON at position 1" |} /\
  ~ shell_does_not_crash malformedHost.
Proof.
  split; [vm_compute; reflexivity|]. split; [vm_compute; reflexivity|].
  intros (E & Hload & _).
  assert (Hthrow : loadModule malformedHost
                   = Throw {| message := "Expected property name or '}' in JSON at position 1" |})
    by (vm_compute; reflexivity).
  rewrite Hthrow in Hload. discriminate.
Qed.

(** C8: an exception of [JSON.parse] on the configuration text is thrown
    at module scope and is not caught: the module does not load.  When
    the text parses, the module loads with the parsed configuration, and
    from there on every exception of client initialization is contained:
    the effect always completes normally; when [initializeApp],
    [getFirestore], [getAuth] or [onAuthStateChanged] throws, the effect
    returns without a cleanup, the loading message becomes "Failed to
    initialize Firebase: " followed by the exception's message, the
    exception is logged, readiness, session identity, user status and
    active tab are as before and no sign-in is attempted; no reachable
    state of the shell is a crashed one, and after such a mount the shell
    shows the loading screen with that message. *)
Theorem init_errors_caught_after_load (H : Host) :
  (forall e,
      JSON_parse H (config_text H) = inl e ->
      loadModule H = Throw e /\ ~ shell_does_not_crash H) /\
  (forall cfg,
      JSON_parse H (config_text H) = inr cfg ->
      exists E,
        loadModule H = Normal E /\
        firebaseConfig E = cfg /\
        shell_does_not_crash H /\
        (forall s, exists c s', bootstrap E s = (Normal c, s')) /\
        (forall s e,
            config_missing E = false -> init_throws E e ->
            exists s',
              bootstrap E s = (Normal false, s') /\
              loadingMessage (ui s')
              = "Failed to initialize Firebase: " ++ message e /\
              isAuthReady (ui s') = isAuthReady (ui s) /\
              userId (ui s') = userId (ui s) /\
              userStatus (ui s') = userStatus (ui s) /\
              activeTab (ui s') = activeTab (ui s) /\
              In (ConsoleError "Firebase Initialization Error:" e) (trace s') /\
              signins (trace s') = signins (trace s) /\
              crashed s' = crashed s) /\
        (forall s, reachable E s -> crashed s = None) /\
        (forall e s,
            config_missing E = false -> init_throws E e ->
            step E initialSys Mount = Some s ->
            render E (ui s) = LoadingScreen (ui s) /\
            loadingMessage (ui s)
            = "Failed to initialize Firebase: " ++ message e)).
Proof.
  split.
  - intros e He. unfold shell_does_not_crash, loadModule. rewrite He.
    split; [reflexivity|]. intros (E & Hload & _). discriminate.
  - intros cfg Hcfg. unfold shell_does_not_crash, loadModule. rewrite Hcfg.
    eexists. split; [reflexivity|]. split; [reflexivity|].
    split; [|split; [|split; [|split]]].
    + eexists. split; [reflexivity|]. apply reachable_not_crashed.
    + intros s.
      match goal with |- exists c s', bootstrap ?E s = _ =>
        destruct (bootstrap_returns E s) as [c Hc];
        destruct (bootstrap E s) as [r s']
      end.
      simpl in Hc; subst. eauto.
    + intros s e Hc Ht.
      match goal with |- exists s', bootstrap ?E s = _ /\ _ =>
        destruct (bootstrap_failure E s e Hc Ht)
          as (s' & Hb & Hm & Hu & Hr & Ha & Hst & (calls & Htr & Hsg)
              & _ & _ & _ & _ & Hcr)
      end.
      exists s'. repeat split; try assumption.
      * rewrite Htr. apply in_or_app; right. apply in_or_app; right. now left.
      * rewrite Htr. unfold signins in *. rewrite !filter_app, Hsg. simpl.
        now rewrite app_nil_r.
    + apply reachable_not_crashed.
    + intros e s Hc Ht Hs. unfold step in Hs. simpl in Hs.
      match type of Hs with context [bootstrap ?E initialSys] =>
        destruct (bootstrap_failure E initialSys e Hc Ht)
          as (s' & Hb & Hm & _ & Hr & _)
      end.
      rewrite Hb in Hs. inversion Hs; subst; simpl. split.
      * unfold render. now rewrite Hr.
      * exact Hm.
Qed.

Lemma init_errors_caught_after_load_witness :
  (loadModule malformedHost
   = Throw {| message := "Expected property name or '}' in JSON at position 1" |}) /\
  (exists E,
      loadModule demoHost = Normal E /\
      firebaseConfig E = demoConfig /\
      shell_does_not_crash demoHost).
Proof.
  split.
  - apply (proj1 (init_errors_caught_after_load malformedHost)).
    vm_compute; reflexivity.
  - destruct (proj2 (init_errors_caught_after_load demoHost) demoConfig)
      as (E & Hload & Hcfg & Hshell & _).
    + vm_compute; reflexivity.
    + exists E. split; [exact Hload|]. split; [exact Hcfg|exact Hshell].
Defined.
